(** * dropcam: the session and request layer of the DropCam client

    A shallow embedding of [dropcam.go].  The Go code talks to the network,
    reads response bodies that are streams, mutates the receiver [*Dropcam]
    and writes files; all of that is state of a [World] that every operation
    threads through a small state-and-panic monad.

    What is not part of the state: console output ([log.Println],
    [fmt.Printf], [Dbg] with [Devel = false]) and the time spent in back-off
    between two attempts of the HTTP library. *)

From Stdlib Require Import ZArith List String Ascii Bool Lia.
From Stdlib Require Import Init.Byte.
From stdpp Require Import base option list gmap strings.
Import ListNotations.

Set Warnings "-register-all".

Local Open Scope string_scope.
Local Open Scope Z_scope.

(** ** Bytes, strings and machine integers *)

(** A Go [[]byte] is a list of bytes and a Go [string] an immutable byte
    sequence; both convert into each other without loss. *)
Definition bytes_of_string (s : string) : list byte := list_byte_of_string s.
Definition string_of_bytes (b : list byte) : string := string_of_list_byte b.

Definition chars (s : string) : list ascii := list_ascii_of_string s.
Definition unchars (l : list ascii) : string := string_of_list_ascii l.

Definition code (c : ascii) : Z := Z.of_N (N_of_ascii c).
Definition char_of (z : Z) : ascii := ascii_of_N (Z.to_N z).

(** The double quote, written by its code. *)
Definition dquote : ascii := "034"%char.

(** [q s] is [s] with every apostrophe turned into a double quote, so that a
    JSON text can be written down legibly: [q "{'status':200}"]. *)
Definition q (s : string) : string :=
  unchars (map (fun c => if Ascii.eqb c "'"%char then dquote else c) (chars s)).

(** Go's [int64] (and [int] on the 64-bit platforms this package targets):
    a [Z] kept in range by wrap-around. *)
Definition min_int64 : Z := - 2 ^ 63.
Definition max_int64 : Z := 2 ^ 63 - 1.
Definition wrap64 (z : Z) : Z := (z + 2 ^ 63) mod 2 ^ 64 - 2 ^ 63.
Definition sub64 (a b : Z) : Z := wrap64 (a - b).
Definition mul64 (a b : Z) : Z := wrap64 (a * b).
Definition in_int64 (z : Z) : bool := (min_int64 <=? z) && (z <=? max_int64).

(** [fmt.Sprintf("%d", n)]: the decimal digits, with a minus sign in front of
    a negative number. *)
Fixpoint digits_of (fuel : nat) (n : Z) (acc : list ascii) : list ascii :=
  match fuel with
  | O => acc
  | S fuel =>
      let acc := char_of (48 + n mod 10) :: acc in
      if n / 10 =? 0 then acc else digits_of fuel (n / 10) acc
  end.

Definition Sprintf_d (n : Z) : string :=
  let ds := unchars (digits_of (S (Z.to_nat (Z.log2 (Z.abs n)))) (Z.abs n) []) in
  if n <? 0 then String "-"%char ds else ds.

(** ** JSON: documents, the parser of [encoding/json]

    [json.Unmarshal] first checks the whole input against the JSON grammar and
    only then decodes.  [parse] is that grammar; a number keeps its literal,
    as the Go scanner does. *)
Inductive json : Type :=
| JNull
| JBool (b : bool)
| JNum (lit : string)
| JStr (s : string)
| JArr (elems : list json)
| JObj (members : list (string * json)).

Definition is_ws (c : ascii) : bool :=
  match code c with 32 | 9 | 10 | 13 => true | _ => false end.
Definition is_digit (c : ascii) : bool := (48 <=? code c) && (code c <=? 57).

Fixpoint skip_ws (s : list ascii) : list ascii :=
  match s with
  | c :: r => if is_ws c then skip_ws r else s
  | [] => []
  end.

Fixpoint span_digits (s : list ascii) : list ascii * list ascii :=
  match s with
  | c :: r =>
      if is_digit c then let '(ds, r') := span_digits r in (c :: ds, r')
      else ([], s)
  | [] => ([], [])
  end.

(** number = [ minus ] int [ frac ] [ exp ] *)
Definition lex_number (s : list ascii) : option (string * list ascii) :=
  let '(sign, s1) :=
    match s with
    | c :: r => if Ascii.eqb c "-" then ([c], r) else ([], s)
    | [] => ([], s)
    end in
  '(ip, s2) ←
    match s1 with
    | c :: r =>
        if Ascii.eqb c "0" then Some ([c], r)
        else if is_digit c then Some (span_digits s1)
        else None
    | [] => None
    end;
  '(fp, s3) ←
    match s2 with
    | c :: r =>
        if Ascii.eqb c "." then
          match span_digits r with
          | ([], _) => None
          | (ds, r') => Some (c :: ds, r')
          end
        else Some ([], s2)
    | [] => Some ([], s2)
    end;
  '(ep, s4) ←
    match s3 with
    | c :: r =>
        if Ascii.eqb c "e" || Ascii.eqb c "E" then
          let '(sg, r1) :=
            match r with
            | d :: r' =>
                if Ascii.eqb d "+" || Ascii.eqb d "-" then ([d], r') else ([], r)
            | [] => ([], r)
            end in
          match span_digits r1 with
          | ([], _) => None
          | (ds, r') => Some (c :: sg ++ ds, r')
          end
        else Some ([], s3)
    | [] => Some ([], s3)
    end;
  Some (unchars (sign ++ ip ++ fp ++ ep), s4).

Definition hex_val (c : ascii) : option Z :=
  let n := code c in
  if (48 <=? n) && (n <=? 57) then Some (n - 48)
  else if (97 <=? n) && (n <=? 102) then Some (n - 87)
  else if (65 <=? n) && (n <=? 70) then Some (n - 55)
  else None.

Definition hex4 (a b c d : ascii) : option Z :=
  x1 ← hex_val a; x2 ← hex_val b; x3 ← hex_val c; x4 ← hex_val d;
  Some (((x1 * 16 + x2) * 16 + x3) * 16 + x4).

(** UTF-8 encoding of a code point (at most U+10FFFF). *)
Definition utf8 (r : Z) : list ascii :=
  if r <? 128 then [char_of r]
  else if r <? 2048 then [char_of (192 + r / 64); char_of (128 + r mod 64)]
  else if r <? 65536 then
    [char_of (224 + r / 4096); char_of (128 + (r / 64) mod 64);
     char_of (128 + r mod 64)]
  else
    [char_of (240 + r / 262144); char_of (128 + (r / 4096) mod 64);
     char_of (128 + (r / 64) mod 64); char_of (128 + r mod 64)].

Definition replacement_char : Z := 65533.
Definition is_surrogate (r : Z) : bool := (55296 <=? r) && (r <? 57344).

Definition simple_escape (e : ascii) : option ascii :=
  match code e with
  | 34 => Some dquote
  | 92 => Some "\"%char
  | 47 => Some "/"%char
  | 98 => Some "008"%char
  | 102 => Some "012"%char
  | 110 => Some "010"%char
  | 114 => Some "013"%char
  | 116 => Some "009"%char
  | _ => None
  end.

(** The rest of a string literal, after its opening quote.  A [\u] escape
    becomes the UTF-8 encoding of its code point; a high surrogate followed by
    a low one becomes the combined code point, a surrogate on its own U+FFFD.
    Bytes above 127 are kept as they are (Go replaces a byte sequence that is
    not valid UTF-8 by U+FFFD; no text in this development has one). *)
Fixpoint lex_string (s : list ascii) (acc : list ascii)
  : option (string * list ascii) :=
  match s with
  | [] => None
  | c :: r =>
      if Ascii.eqb c dquote then Some (unchars (rev acc), r)
      else if Ascii.eqb c "\" then
        match r with
        | [] => None
        | e :: r1 =>
            match simple_escape e with
            | Some x => lex_string r1 (x :: acc)
            | None =>
                if Ascii.eqb e "u" then
                  match r1 with
                  | h1 :: h2 :: h3 :: h4 :: r2 =>
                      match hex4 h1 h2 h3 h4 with
                      | None => None
                      | Some hi =>
                          if is_surrogate hi then
                            match r2 with
                            | b :: u :: g1 :: g2 :: g3 :: g4 :: r3 =>
                                match
                                  (if Ascii.eqb b "\" && Ascii.eqb u "u"
                                   then hex4 g1 g2 g3 g4 else None)
                                with
                                | Some lo =>
                                    if (hi <? 56320) && (56320 <=? lo) && (lo <? 57344)
                                    then
                                      lex_string r3
                                        (rev (utf8 (65536 + (hi - 55296) * 1024 + (lo - 56320)))
                                           ++ acc)
                                    else lex_string r2 (rev (utf8 replacement_char) ++ acc)
                                | None => lex_string r2 (rev (utf8 replacement_char) ++ acc)
                                end
                            | _ => lex_string r2 (rev (utf8 replacement_char) ++ acc)
                            end
                          else lex_string r2 (rev (utf8 hi) ++ acc)
                      end
                  | _ => None
                  end
                else None
            end
        end
      else if code c <? 32 then None
      else lex_string r (c :: acc)
  end.

Definition expect (w : string) (s : list ascii) : option (list ascii) :=
  let w := chars w in
  if decide (take (length w) s = w) then Some (drop (length w) s) else None.

(** One value, then what is left of the input.  Every call below uses up one
    unit of fuel and belongs to a character of its own in the input (a value
    to its first character, the elements of an array and the members of an
    object to the bracket, brace or comma in front of them), so twice the
    length of the input is fuel enough; [parse] hands over more. *)
Fixpoint parse_value (fuel : nat) (s : list ascii) : option (json * list ascii) :=
  match fuel with
  | O => None
  | S fuel =>
      match skip_ws s with
      | [] => None
      | c :: r =>
          if Ascii.eqb c "n" then r' ← expect "ull" r; Some (JNull, r')
          else if Ascii.eqb c "t" then r' ← expect "rue" r; Some (JBool true, r')
          else if Ascii.eqb c "f" then r' ← expect "alse" r; Some (JBool false, r')
          else if Ascii.eqb c dquote then
            '(str, r') ← lex_string r []; Some (JStr str, r')
          else if Ascii.eqb c "[" then
            match skip_ws r with
            | c' :: r' =>
                if Ascii.eqb c' "]" then Some (JArr [], r')
                else '(l, r'') ← parse_elems fuel r []; Some (JArr l, r'')
            | [] => None
            end
          else if Ascii.eqb c "{" then
            match skip_ws r with
            | c' :: r' =>
                if Ascii.eqb c' "}" then Some (JObj [], r')
                else '(l, r'') ← parse_members fuel r []; Some (JObj l, r'')
            | [] => None
            end
          else if Ascii.eqb c "-" || is_digit c then
            '(lit, r') ← lex_number (c :: r); Some (JNum lit, r')
          else None
      end
  end
with parse_elems (fuel : nat) (s : list ascii) (acc : list json)
  : option (list json * list ascii) :=
  match fuel with
  | O => None
  | S fuel =>
      '(v, r) ← parse_value fuel s;
      match skip_ws r with
      | c :: r' =>
          if Ascii.eqb c "," then parse_elems fuel r' (v :: acc)
          else if Ascii.eqb c "]" then Some (rev (v :: acc), r')
          else None
      | [] => None
      end
  end
with parse_members (fuel : nat) (s : list ascii) (acc : list (string * json))
  : option (list (string * json) * list ascii) :=
  match fuel with
  | O => None
  | S fuel =>
      match skip_ws s with
      | c :: r =>
          if Ascii.eqb c dquote then
            '(k, r1) ← lex_string r [];
            match skip_ws r1 with
            | c1 :: r2 =>
                if Ascii.eqb c1 ":" then
                  '(v, r3) ← parse_value fuel r2;
                  match skip_ws r3 with
                  | c3 :: r4 =>
                      if Ascii.eqb c3 "," then parse_members fuel r4 ((k, v) :: acc)
                      else if Ascii.eqb c3 "}" then Some (rev ((k, v) :: acc), r4)
                      else None
                  | [] => None
                  end
                else None
            | [] => None
            end
          else None
      | [] => None
      end
  end.

(** A whole document: one value with white space around it and nothing else. *)
Definition parse (text : string) : option json :=
  let s := chars text in
  '(v, r) ← parse_value (S (2 * length s)) s;
  match skip_ws r with
  | [] => Some v
  | _ :: _ => None
  end.

(** ** JSON: decoding into Go values

    What [json.Unmarshal] does once the text is known to be well formed, for
    the kinds of Go types this package declares.  A struct type is the list of
    its exported fields, each under the key of its [json] tag (or under its Go
    name when it has no tag). *)
Definition error : Type := string.

Inductive gotype : Type :=
| TString
| TBool
| TInt
| TFloat64
| TInterface
| TSlice (elem : gotype)
| TStruct (name : string) (fields : list (string * gotype)).

Inductive govalue : Type :=
| VString (s : string)
| VBool (b : bool)
| VInt (z : Z)
| VFloat (lit : string)
| VInterface (v : option json)
| VSlice (l : list govalue)
| VStruct (fs : list (string * govalue)).

(** The zero value a Go variable starts with. *)
Fixpoint zero_value (t : gotype) : govalue :=
  match t with
  | TString => VString EmptyString
  | TBool => VBool false
  | TInt => VInt 0
  | TFloat64 => VFloat "0"
  | TInterface => VInterface None
  | TSlice _ => VSlice []
  | TStruct _ fs => VStruct (map (fun f => (fst f, zero_value (snd f))) fs)
  end.

Definition type_name (t : gotype) : string :=
  match t with
  | TString => "string"
  | TBool => "bool"
  | TInt => "int"
  | TFloat64 => "float64"
  | TInterface => "interface {}"
  | TSlice _ => "slice"
  | TStruct n _ => n
  end.

Definition kind_name (j : json) : string :=
  match j with
  | JNull => "null"
  | JBool _ => "bool"
  | JNum lit => "number " +:+ lit
  | JStr _ => "string"
  | JArr _ => "array"
  | JObj _ => "object"
  end.

Definition type_error (j : json) (t : gotype) : error :=
  "json: cannot unmarshal " +:+ kind_name j +:+ " into Go value of type " +:+ type_name t.

(** [strconv.ParseInt(lit, 10, 64)] on a JSON number literal: digits only,
    with an optional minus sign, and within [int64]. *)
Fixpoint digits_value (ds : list ascii) (acc : Z) : option Z :=
  match ds with
  | [] => Some acc
  | c :: r => if is_digit c then digits_value r (acc * 10 + (code c - 48)) else None
  end.

Definition ParseInt (lit : string) : option Z :=
  n ← match chars lit with
      | [] => None
      | c :: r =>
          if Ascii.eqb c "-" then
            match r with [] => None | _ => Z.opp <$> digits_value r 0 end
          else digits_value (c :: r) 0
      end;
  if in_int64 n then Some n else None.

(** Key matching ignores the case of ASCII letters; the Kelvin sign stands for
    [k] and the long s for [s], as in the decoder's folding of names made of
    ASCII letters. *)
Definition is_letter (c : ascii) : bool :=
  let u := Z.land (code c) 223 in (65 <=? u) && (u <=? 90) && (code c <? 128).

Fixpoint equal_fold (s t : list ascii) : bool :=
  match s, t with
  | [], [] => true
  | sb :: s', tb :: t' =>
      if code tb <? 128 then
        if Ascii.eqb sb tb then equal_fold s' t'
        else if is_letter sb && (Z.land (code sb) 223 =? Z.land (code tb) 223)
             then equal_fold s' t'
             else false
      else
        match Z.land (code sb) 223, map code t with
        | 83, 197 :: 191 :: _ => equal_fold s' (drop 1 t')
        | 75, 226 :: 132 :: 170 :: _ => equal_fold s' (drop 2 t')
        | _, _ => false
        end
  | _, _ => false
  end.

(** The field a key selects: one whose name is the key itself or, failing
    that, the first one that matches when case is ignored. *)
Definition find_field {A} (fs : list (string * A)) (k : string) : option (string * A) :=
  match find (fun f => String.eqb (fst f) k) fs with
  | Some f => Some f
  | None => find (fun f => equal_fold (chars (fst f)) (chars k)) fs
  end.

Definition get_field (fs : list (string * govalue)) (k : string) : option govalue :=
  snd <$> find (fun f => String.eqb (fst f) k) fs.

Fixpoint set_field (fs : list (string * govalue)) (k : string) (v : govalue)
  : list (string * govalue) :=
  match fs with
  | [] => []
  | (k', v') :: r => if String.eqb k' k then (k', v) :: r else (k', v') :: set_field r k v
  end.

Definition first_error (e1 e2 : option error) : option error :=
  match e1 with Some _ => e1 | None => e2 end.

(** [decode t j old] stores document [j] into a variable of type [t] that
    holds [old].  A value of the wrong kind leaves the variable as it is and
    is reported; decoding goes on, and the first such error is the one
    returned.  [null] leaves strings, numbers, booleans and structs alone and
    empties interfaces and slices.  A float keeps its literal (the range check
    of [strconv.ParseFloat] is left out). *)
Fixpoint decode (t : gotype) (j : json) (old : govalue) : govalue * option error :=
  match j with
  | JNull =>
      match t with
      | TInterface => (VInterface None, None)
      | TSlice _ => (VSlice [], None)
      | _ => (old, None)
      end
  | JBool b =>
      match t with
      | TBool => (VBool b, None)
      | TInterface => (VInterface (Some j), None)
      | _ => (old, Some (type_error j t))
      end
  | JStr s =>
      match t with
      | TString => (VString s, None)
      | TInterface => (VInterface (Some j), None)
      | _ => (old, Some (type_error j t))
      end
  | JNum lit =>
      match t with
      | TInt =>
          match ParseInt lit with
          | Some n => (VInt n, None)
          | None => (old, Some (type_error j t))
          end
      | TFloat64 => (VFloat lit, None)
      | TInterface => (VInterface (Some j), None)
      | _ => (old, Some (type_error j t))
      end
  | JArr elems =>
      match t with
      | TSlice te =>
          let r :=
            (fix each (l : list json) : list govalue * option error :=
               match l with
               | [] => ([], None)
               | x :: l' =>
                   let '(v, e) := decode te x (zero_value te) in
                   let '(vs, e') := each l' in
                   (v :: vs, first_error e e')
               end) elems in
          (VSlice (fst r), snd r)
      | TInterface => (VInterface (Some j), None)
      | _ => (old, Some (type_error j t))
      end
  | JObj members =>
      match t with
      | TStruct _ fts =>
          (fix each (ms : list (string * json)) (cur : list (string * govalue))
               (err : option error) : govalue * option error :=
             match ms with
             | [] => (VStruct cur, err)
             | (k, x) :: ms' =>
                 match find_field fts k with
                 | None => each ms' cur err
                 | Some (fk, ft) =>
                     let '(v, e) := decode ft x (default (zero_value ft) (get_field cur fk)) in
                     each ms' (set_field cur fk v) (first_error err e)
                 end
             end) members
            (match old with VStruct fs => fs | _ => [] end) None
      | TInterface => (VInterface (Some j), None)
      | _ => (old, Some (type_error j t))
      end
  end.

(** [json.Unmarshal(data, &v)] for a variable [v] of type [t] holding [old]:
    input that is not one JSON document is a syntax error and [v] is left
    untouched. *)
Definition syntax_error : error := "json: syntax error".

Definition Unmarshal (t : gotype) (data : list byte) (old : govalue)
  : govalue * option error :=
  match parse (string_of_bytes data) with
  | None => (old, Some syntax_error)
  | Some j => decode t j old
  end.

(** ** The types of the package *)

(** Constants *)
Definition NexusBase : string := "https://nexusapi.dropcam.com".
Definition ApiBase : string := "https://www.dropcam.com".
Definition ApiPath : string := "api/v1".
Definition Devel : bool := false.

Record UserCreds : Type := {
  Username : string;
  Password : string;
}.

Record Dropcam : Type := {
  LoginPath : string;
  CamerasGet : string;
  CamerasUpdate : string;
  CamerasGetVisible : string;
  CamerasGetImagePath : string;
  EventPath : string;
  EventGetClipPath : string;
  PropertiesPath : string;
  Creds : UserCreds;
  Cookie : string;
}.

(** [Events] has no fields. *)
Inductive Events : Type := Events_value.

Record Owned : Type := {
  Capabilities : list string;
  Description : string;
  DownloadHost : string;
  HasBundle : bool;
  HoursOfRecordingMax : string;
  Id : Z;
  IsConnected : bool;
  IsOnline : bool;
  IsPublic : bool;
  IsStreaming : bool;
  IsStreamingEnabled : bool;
  IsTrialMode : bool;
  IsTrialWarning : bool;
  LastLocalIp : string;
  LiveStreamHost : string;
  Location : option json;
  MacAddress : string;
  Name : string;
  NestStructureId : option json;
  OwnerId : string;
  PublicToken : string;
  Timezone : string;
  TimezoneUtcOffset : Z;
  Title : string;
  TrialDaysLeft : Z;
  Type_ : Z;
  Uuid : string;
  Where : string;
}.

Record Items : Type := {
  Items_Owned : list Owned;
  Items_Subscribed : list (option json);
}.

Record Cam : Type := {
  Cam_Items : list Items;
  Cam_Status : Z;
  Cam_StatusDescription : string;
  Cam_StatusDetail : string;
}.

(** [Cameras.Dropcam] is a pointer: the address of the client in the heap. *)
Record Cameras : Type := {
  Cameras_Dropcam : nat;
  Cameras_Cam : list Owned;
}.

Record CamProp : Type := {
  CamProp_UUID : string;
  CamProp_Name : string;
  CamProp_Value : string;
}.

(** The same types as the decoder sees them: fields under their JSON keys. *)
Definition BodyStatusT : gotype := TStruct "BodyStatus" [("Status", TInt)].

Definition OwnedT : gotype :=
  TStruct "Owned"
    [("capabilities", TSlice TString); ("description", TString);
     ("download_host", TString); ("has_bundle", TBool);
     ("hours_of_recording_max", TFloat64); ("id", TInt);
     ("is_connected", TBool); ("is_online", TBool); ("is_public", TBool);
     ("is_streaming", TBool); ("is_streaming_enabled", TBool);
     ("is_trial_mode", TBool); ("is_trial_warning", TBool);
     ("last_local_ip", TString); ("live_stream_host", TString);
     ("location", TInterface); ("mac_address", TString); ("name", TString);
     ("nest_structure_id", TInterface); ("owner_id", TString);
     ("public_token", TString); ("timezone", TString);
     ("timezone_utc_offset", TInt); ("title", TString);
     ("trial_days_left", TInt); ("type", TInt); ("uuid", TString);
     ("where", TString)].

Definition ItemsT : gotype :=
  TStruct "struct" [("owned", TSlice OwnedT); ("subscribed", TSlice TInterface)].

Definition CamT : gotype :=
  TStruct "Cam"
    [("items", TSlice ItemsT); ("status", TInt);
     ("status_description", TString); ("status_detail", TString)].

Definition EventsT : gotype := TStruct "Events" [].

(** Reading a decoded struct back as a record. *)
Definition field (v : govalue) (k : string) : govalue :=
  match v with
  | VStruct fs => default (VStruct []) (get_field fs k)
  | _ => VStruct []
  end.

Definition as_string (v : govalue) : string :=
  match v with VString s => s | _ => EmptyString end.
Definition as_bool (v : govalue) : bool :=
  match v with VBool b => b | _ => false end.
Definition as_int (v : govalue) : Z :=
  match v with VInt z => z | _ => 0 end.
Definition as_float (v : govalue) : string :=
  match v with VFloat l => l | _ => "0" end.
Definition as_interface (v : govalue) : option json :=
  match v with VInterface j => j | _ => None end.
Definition as_slice (v : govalue) : list govalue :=
  match v with VSlice l => l | _ => [] end.

Definition BodyStatus_Status (v : govalue) : Z := as_int (field v "Status").

Definition Owned_of (v : govalue) : Owned :=
  {| Capabilities := as_string <$> as_slice (field v "capabilities");
     Description := as_string (field v "description");
     DownloadHost := as_string (field v "download_host");
     HasBundle := as_bool (field v "has_bundle");
     HoursOfRecordingMax := as_float (field v "hours_of_recording_max");
     Id := as_int (field v "id");
     IsConnected := as_bool (field v "is_connected");
     IsOnline := as_bool (field v "is_online");
     IsPublic := as_bool (field v "is_public");
     IsStreaming := as_bool (field v "is_streaming");
     IsStreamingEnabled := as_bool (field v "is_streaming_enabled");
     IsTrialMode := as_bool (field v "is_trial_mode");
     IsTrialWarning := as_bool (field v "is_trial_warning");
     LastLocalIp := as_string (field v "last_local_ip");
     LiveStreamHost := as_string (field v "live_stream_host");
     Location := as_interface (field v "location");
     MacAddress := as_string (field v "mac_address");
     Name := as_string (field v "name");
     NestStructureId := as_interface (field v "nest_structure_id");
     OwnerId := as_string (field v "owner_id");
     PublicToken := as_string (field v "public_token");
     Timezone := as_string (field v "timezone");
     TimezoneUtcOffset := as_int (field v "timezone_utc_offset");
     Title := as_string (field v "title");
     TrialDaysLeft := as_int (field v "trial_days_left");
     Type_ := as_int (field v "type");
     Uuid := as_string (field v "uuid");
     Where := as_string (field v "where") |}.

Definition Items_of (v : govalue) : Items :=
  {| Items_Owned := Owned_of <$> as_slice (field v "owned");
     Items_Subscribed := as_interface <$> as_slice (field v "subscribed") |}.

Definition Cam_of (v : govalue) : Cam :=
  {| Cam_Items := Items_of <$> as_slice (field v "items");
     Cam_Status := as_int (field v "status");
     Cam_StatusDescription := as_string (field v "status_description");
     Cam_StatusDetail := as_string (field v "status_detail") |}.

(** The document [json.Marshal] writes for a [CamProp]: its three fields in
    the order of their declaration, under the keys of their tags. *)
Definition Marshal_CamProp (p : CamProp) : json :=
  JObj [("camera_uuid", JStr (CamProp_UUID p));
        ("name", JStr (CamProp_Name p));
        ("value", JStr (CamProp_Value p))].

(** [time.Time], as far as this package looks at it: the [int64] seconds since
    the epoch that [Unix] returns. *)
Record Time : Type := { seconds : Z }.
Definition Unix (t : Time) : Z := wrap64 (seconds t).

(** ** URLs and headers *)

(** [url.Values]: each key with the list of its values. *)
Definition Values_Set (key value : string) (v : gmap string (list string))
  : gmap string (list string) :=
  <[key := [value]]> v.

Definition Values_Add (key value : string) (v : gmap string (list string))
  : gmap string (list string) :=
  <[key := (default [] (v !! key) ++ [value])%list]> v.

Definition hex_digit (n : Z) : ascii :=
  if n <? 10 then char_of (48 + n) else char_of (55 + n).

(** [url.QueryEscape]: letters, digits and [-_.~] stay, a space becomes [+],
    any other byte [%XX]. *)
Definition unreserved (c : ascii) : bool :=
  let n := code c in
  ((97 <=? n) && (n <=? 122)) || ((65 <=? n) && (n <=? 90)) || is_digit c
  || (n =? 45) || (n =? 95) || (n =? 46) || (n =? 126).

Definition escape_char (c : ascii) : list ascii :=
  if unreserved c then [c]
  else if code c =? 32 then ["+"%char]
  else ["%"%char; hex_digit (code c / 16); hex_digit (code c mod 16)].

Definition QueryEscape (s : string) : string :=
  unchars (flat_map escape_char (chars s)).

Fixpoint insert_sorted (k : string) (l : list string) : list string :=
  match l with
  | [] => [k]
  | x :: r => if String.leb k x then k :: l else x :: insert_sorted k r
  end.

Definition sort_strings (l : list string) : list string := foldr insert_sorted [] l.

Fixpoint join (sep : string) (l : list string) : string :=
  match l with
  | [] => EmptyString
  | [x] => x
  | x :: r => x +:+ sep +:+ join sep r
  end.

(** [Values.Encode]: [key=value] pairs joined by [&], keys in sorted order. *)
Definition Values_Encode (v : gmap string (list string)) : string :=
  join "&"
    (flat_map
       (fun k => (fun x => QueryEscape k +:+ "=" +:+ QueryEscape x) <$> default [] (v !! k))
       (sort_strings (elements (dom v)))).

(** [textproto.CanonicalMIMEHeaderKey]: the first letter and every letter
    after a hyphen in upper case, the others in lower case; a key with a byte
    that cannot be part of a header name is returned as it is. *)
Definition is_token_char (c : ascii) : bool :=
  let n := code c in
  is_letter c || is_digit c
  || existsb (Z.eqb n) [33; 35; 36; 37; 38; 39; 42; 43; 45; 46; 94; 95; 96; 124; 126].

Definition to_upper (c : ascii) : ascii :=
  if (97 <=? code c) && (code c <=? 122) then char_of (code c - 32) else c.
Definition to_lower (c : ascii) : ascii :=
  if (65 <=? code c) && (code c <=? 90) then char_of (code c + 32) else c.

Fixpoint canonical (upper : bool) (s : list ascii) : list ascii :=
  match s with
  | [] => []
  | c :: r =>
      (if upper then to_upper c else to_lower c) :: canonical (Ascii.eqb c "-") r
  end.

Definition CanonicalMIMEHeaderKey (key : string) : string :=
  if forallb is_token_char (chars key) then unchars (canonical true (chars key))
  else key.

(** [http.Header.Get]: the first value under the canonical form of the key,
    the empty string when there is none. *)
Definition Header_Get (h : gmap string (list string)) (key : string) : string :=
  match h !! CanonicalMIMEHeaderKey key with
  | Some (x :: _) => x
  | _ => EmptyString
  end.

(** ** The HTTP library and the world around the client *)

(** A request as the builder of the HTTP library ([fluent]) holds it.  An
    option the caller never sets is [None]. *)
Record Request : Type := {
  Method : string;
  Url : string;
  ReqHeader : gmap string string;
  JsonBody : option json;
  Interval : option Z;
  Retries : option Z;
}.

Definition New : Request :=
  {| Method := EmptyString; Url := EmptyString; ReqHeader := ∅;
     JsonBody := None; Interval := None; Retries := None |}.

Definition Post (url : string) (r : Request) : Request :=
  {| Method := "POST"; Url := url; ReqHeader := ReqHeader r;
     JsonBody := JsonBody r; Interval := Interval r; Retries := Retries r |}.

Definition Get (url : string) (r : Request) : Request :=
  {| Method := "GET"; Url := url; ReqHeader := ReqHeader r;
     JsonBody := JsonBody r; Interval := Interval r; Retries := Retries r |}.

Definition SetHeader (key value : string) (r : Request) : Request :=
  {| Method := Method r; Url := Url r; ReqHeader := <[key := value]> (ReqHeader r);
     JsonBody := JsonBody r; Interval := Interval r; Retries := Retries r |}.

Definition Json (data : json) (r : Request) : Request :=
  {| Method := Method r; Url := Url r; ReqHeader := ReqHeader r;
     JsonBody := Some data; Interval := Interval r; Retries := Retries r |}.

Definition InitialInterval (t : Z) (r : Request) : Request :=
  {| Method := Method r; Url := Url r; ReqHeader := ReqHeader r;
     JsonBody := JsonBody r; Interval := Some t; Retries := Retries r |}.

Definition Retry (n : Z) (r : Request) : Request :=
  {| Method := Method r; Url := Url r; ReqHeader := ReqHeader r;
     JsonBody := JsonBody r; Interval := Interval r; Retries := Some n |}.

(** [time.Millisecond], in nanoseconds. *)
Definition Millisecond : Z := 1000000.

(** What one round trip to the server comes to: no response at all, or a
    response whose body arrives as [reply_body] and whose reading then ends
    normally or with [reply_fault]. *)
Record Reply : Type := {
  reply_status : string;
  reply_code : Z;
  reply_header : gmap string (list string);
  reply_body : list byte;
  reply_fault : option error;
}.

Inductive RoundTrip : Type :=
| NoResponse (e : error)
| Answer (r : Reply).

(** A response body is a stream: what has not been read yet, and the error
    its reading ends with, if any. *)
Record Stream : Type := {
  unread : list byte;
  fault : option error;
}.

(** [http.Response]; [Body] is the handle of its stream. *)
Record Response : Type := {
  Status : string;
  StatusCode : Z;
  Header : gmap string (list string);
  Body : nat;
}.

(** Ways [ioutil.WriteFile] can fail: the file cannot be opened, or only the
    first [n] bytes get written. *)
Inductive DiskFault : Type :=
| OpenFails (e : error)
| WriteFails (n : nat) (e : error).

(** Everything outside the client.
    - [remote i req]: what the [i]-th round trip of the process comes to when
      it carries [req];
    - [library_attempts]: how many attempts the HTTP library makes for a
      request on which [Retry] was never called;
    - [wire]: the requests put on the wire so far, one entry per attempt;
    - [streams]: the response bodies, by handle;
    - [heap]: the [Dropcam] objects, by address;
    - [files], [disk]: the file system and the faults of its paths. *)
Record World : Type := {
  remote : nat -> Request -> RoundTrip;
  library_attempts : nat;
  wire : list Request;
  streams : list Stream;
  heap : list Dropcam;
  files : gmap string (list byte);
  disk : string -> option DiskFault;
}.

Definition with_wire (f : list Request -> list Request) (w : World) : World :=
  {| remote := remote w; library_attempts := library_attempts w;
     wire := f (wire w); streams := streams w; heap := heap w;
     files := files w; disk := disk w |}.

Definition with_streams (f : list Stream -> list Stream) (w : World) : World :=
  {| remote := remote w; library_attempts := library_attempts w;
     wire := wire w; streams := f (streams w); heap := heap w;
     files := files w; disk := disk w |}.

Definition with_heap (f : list Dropcam -> list Dropcam) (w : World) : World :=
  {| remote := remote w; library_attempts := library_attempts w;
     wire := wire w; streams := streams w; heap := f (heap w);
     files := files w; disk := disk w |}.

Definition with_files (f : gmap string (list byte) -> gmap string (list byte))
  (w : World) : World :=
  {| remote := remote w; library_attempts := library_attempts w;
     wire := wire w; streams := streams w; heap := heap w;
     files := f (files w); disk := disk w |}.

(** ** The monad: state, and a panic that ends the run *)
Inductive outcome (A : Type) : Type :=
| Ret (a : A)
| Panic (why : string).
Arguments Ret {A} a.
Arguments Panic {A} why.

Definition M (A : Type) : Type := World -> outcome A * World.

Definition ret {A} (a : A) : M A := fun w => (Ret a, w).

Definition bind {A B} (m : M A) (k : A -> M B) : M B :=
  fun w =>
    match m w with
    | (Ret a, w') => k a w'
    | (Panic why, w') => (Panic why, w')
    end.

Definition panic {A} (why : string) : M A := fun w => (Panic why, w).

(** With these, [x ← m; k] is [bind m (fun x => k)]. *)
#[export] Instance M_ret : MRet M := @ret.
#[export] Instance M_bind : MBind M := fun A B k m => bind m k.

Definition nil_dereference : string :=
  "invalid memory address or nil pointer dereference".

(** [*d] and [*d = v]; an address with no object behind it is a nil pointer. *)
Definition deref (d : nat) : M Dropcam :=
  fun w =>
    match heap w !! d with
    | Some v => (Ret v, w)
    | None => (Panic nil_dereference, w)
    end.

Definition store (d : nat) (v : Dropcam) : M unit :=
  fun w =>
    match heap w !! d with
    | Some _ => (Ret tt, with_heap (fun h => <[d := v]> h) w)
    | None => (Panic nil_dereference, w)
    end.

(** [ioutil.ReadAll]: everything that is left of the stream, and the error the
    reading ended with.  Nothing is left afterwards. *)
Definition ReadAll (rb : nat) : M (list byte * option error) :=
  fun w =>
    match streams w !! rb with
    | Some s =>
        (Ret (unread s, fault s),
         with_streams (fun ss => <[rb := {| unread := []; fault := fault s |}]> ss) w)
    | None => (Panic nil_dereference, w)
    end.

(** [ioutil.WriteFile(path, data, perm)]: the file is replaced by [data]
    (created with [perm] when it is new; permissions are not kept here). *)
Definition WriteFile (path : string) (data : list byte) (perm : Z) : M (option error) :=
  fun w =>
    match disk w path with
    | Some (OpenFails e) => (Ret (Some e), w)
    | Some (WriteFails n e) => (Ret (Some e), with_files (fun fs => <[path := take n data]> fs) w)
    | None => (Ret None, with_files (fun fs => <[path := data]> fs) w)
    end.

(** Modelled from the spec: the HTTP library ([github.com/lafikl/fluent]) is
    not part of this repository; [attempt], [attempts], [max_attempts] and
    [Send] are its [Send] as the specification describes the transport.

    One attempt: the request goes on the wire and the server's answer, if
    there is one, becomes a response with a fresh body stream. *)
Definition attempt (req : Request) : M (option Response * option error) :=
  fun w =>
    let w1 := with_wire (fun l => (l ++ [req])%list) w in
    match remote w (length (wire w)) req with
    | NoResponse e => (Ret (None, Some e), w1)
    | Answer r =>
        (Ret (Some {| Status := reply_status r; StatusCode := reply_code r;
                      Header := reply_header r; Body := length (streams w) |},
              None),
         with_streams
           (fun ss => (ss ++ [{| unread := reply_body r; fault := reply_fault r |}])%list) w1)
    end.

(** Modelled from the spec: an attempt that gets no response is followed by
    another one as long as [more] are allowed; the first response ends the
    loop, whatever its HTTP status; when no attempt gets a response the result
    is no response and the error of the last attempt. *)
Fixpoint attempts (more : nat) (req : Request) : M (option Response * option error) :=
  '(resp, err) ← attempt req;
  match err, more with
  | Some _, S more' => attempts more' req
  | _, _ => ret (resp, err)
  end.

(** Modelled from the spec: the maximum number of attempts is the one given to
    [Retry], and the library's own when [Retry] was not called. *)
Definition max_attempts (req : Request) : M nat :=
  fun w =>
    (Ret (match Retries req with
          | Some n => Z.to_nat n
          | None => library_attempts w
          end), w).

(** Modelled from the spec: [Send] makes up to [max_attempts] attempts, and
    never less than one. *)
Definition Send (req : Request) : M (option Response * option error) :=
  n ← max_attempts req;
  attempts (Nat.pred n) req.

(** ** The functions of the package *)

Definition getBodyRespCode (rb : nat) : M (Z * option error) :=
  '(body, _) ← ReadAll rb;
  let '(bStat, err) := Unmarshal BodyStatusT body (zero_value BodyStatusT) in
  match err with
  | Some e => ret (0, Some e)
  | None => ret (BodyStatus_Status bStat, None)
  end.

(** [data] is the document [json.Marshal] writes for the value handed in.
    The two [log.Println] lines read [resp.Status] and [resp.Header] before
    anything looks at the error of [Send]: without a response they panic. *)
Definition postRequest (d : nat) (url uuid : string) (data : json)
  : M (option Response * option error) :=
  let req := New in
  let req := Json data (InitialInterval Millisecond (Post url req)) in
  let referer := ApiBase +:+ "/" +:+ "watch" +:+ "/" +:+ uuid in
  let req := SetHeader "Referer" referer req in
  this ← deref d;
  let req := SetHeader "cookie" (Cookie this) req in
  '(resp, _) ← Send req;
  match resp with
  | None => panic nil_dereference
  | Some r =>
      '(rc, err) ← getBodyRespCode (Body r);
      match err with
      | Some _ => ret (None, Some "Failed to get Reply Response Code")
      | None =>
          if negb (rc =? 200) then ret (None, Some "Malformed Request")
          else ret (Some r, None)
      end
  end.

Definition getRequest (d : nat) (url : string) (v : gmap string (list string))
  : M (option Response * option error) :=
  let req := New in
  this ← deref d;
  let req :=
    if negb (String.eqb (Cookie this) EmptyString)
    then SetHeader "cookie" (Cookie this) req else req in
  let reqUrl := url +:+ "?" +:+ Values_Encode v in
  let req := Retry 3 (InitialInterval Millisecond (Get reqUrl req)) in
  '(resp, err) ← Send req;
  match err with
  | Some e => ret (None, Some e)
  | None => ret (resp, None)
  end.

Definition login (d : nat) : M (option error) :=
  this ← deref d;
  let v := ∅ in
  let v := Values_Set "username" (Username (Creds this)) v in
  let v := Values_Add "password" (Password (Creds this)) v in
  '(response, err) ← getRequest d (LoginPath this) v;
  match err with
  | Some e => ret (Some ("Login Request Failed: " +:+ e))
  | None =>
      match response with
      | None => panic nil_dereference
      | Some r =>
          this ← deref d;
          let cookie := Header_Get (Header r) "Set-Cookie" in
          _ ← store d
                {| LoginPath := LoginPath this; CamerasGet := CamerasGet this;
                   CamerasUpdate := CamerasUpdate this;
                   CamerasGetVisible := CamerasGetVisible this;
                   CamerasGetImagePath := CamerasGetImagePath this;
                   EventPath := EventPath this;
                   EventGetClipPath := EventGetClipPath this;
                   PropertiesPath := PropertiesPath this;
                   Creds := Creds this; Cookie := cookie |};
          if String.eqb cookie EmptyString
          then ret (Some "Login Returned No Cookie")
          else ret None
      end
  end.

(** The fields as [Init] assigns them: the endpoint table, the credentials
    and an empty cookie. *)
Definition initialized (username password : string) : Dropcam :=
  {| LoginPath := ApiBase +:+ "/" +:+ ApiPath +:+ "/" +:+ "login.login";
     CamerasGet := ApiBase +:+ "/" +:+ ApiPath +:+ "/" +:+ "cameras.get";
     CamerasUpdate := ApiBase +:+ "/" +:+ ApiPath +:+ "/" +:+ "cameras.update";
     CamerasGetVisible := ApiBase +:+ "/" +:+ ApiPath +:+ "/" +:+ "cameras.get_visible";
     CamerasGetImagePath := ApiBase +:+ "/" +:+ ApiPath +:+ "/" +:+ "cameras.get_image";
     EventPath := NexusBase +:+ "/" +:+ "get_cuepoint";
     EventGetClipPath := NexusBase +:+ "/" +:+ "get_event_clip";
     PropertiesPath := ApiBase +:+ "/" +:+ "app/cameras/properties";
     Creds := {| Username := username; Password := password |};
     Cookie := EmptyString |}.

(** [Init] returns the receiver, or nil with the error of [login]. *)
Definition Init (d : nat) (username password : string) : M (option nat * option error) :=
  _ ← store d (initialized username password);
  err ← login d;
  match err with
  | Some e => ret (None, Some e)
  | None => ret (Some d, None)
  end.

(** The two nested [range] loops of [Cameras], appending one camera at a time. *)
Definition collect_owned (items : list Items) : list Owned :=
  fold_left
    (fun cams it => fold_left (fun cams owned => (cams ++ [owned])%list) (Items_Owned it) cams)
    items [].

(** The method [Cameras] of [*Dropcam].  The error of [ioutil.ReadAll] is
    assigned to [err] and overwritten by the result of [json.Unmarshal] before
    anything reads it. *)
Definition Dropcam_Cameras (d : nat) : M (option Cameras * option error) :=
  this ← deref d;
  if String.eqb (Cookie this) EmptyString then
    err ← login d;
    ret (None, err)
  else
    let v := ∅ in
    let v := Values_Set "group_cameras" "True" v in
    '(response, err) ← getRequest d (CamerasGetVisible this) v;
    match err with
    | Some _ => ret (None, Some "Get Visible Cameras Request Failed")
    | None =>
        match response with
        | None => panic nil_dereference
        | Some r =>
            '(body, _) ← ReadAll (Body r);
            let '(cam, err) := Unmarshal CamT body (zero_value CamT) in
            match err with
            | Some e => ret (None, Some e)
            | None =>
                ret (Some {| Cameras_Dropcam := d;
                             Cameras_Cam := collect_owned (Cam_Items (Cam_of cam)) |},
                     None)
            end
        end
    end.

Definition SetProperties (c : Cameras) (o : Owned) (name value : string)
  : M (bool * option error) :=
  this ← deref (Cameras_Dropcam c);
  let url := PropertiesPath this +:+ Uuid o in
  let props := {| CamProp_UUID := Uuid o; CamProp_Name := name; CamProp_Value := value |} in
  '(resp, err) ← postRequest (Cameras_Dropcam c) url (Uuid o) (Marshal_CamProp props);
  match err with
  | Some _ => ret (false, Some "Failed postRequest ")
  | None =>
      match resp with
      | None => panic nil_dereference
      | Some r =>
          '(rc, err) ← getBodyRespCode (Body r);
          match err with
          | Some _ => ret (false, Some "Failed to get Reply Response Code")
          | None =>
              if negb (rc =? 200) then ret (false, Some "SeProperties Malformed Request")
              else ret (true, None)
          end
      end
  end.

(** The result list is a nil slice on every path: the empty list. *)
Definition GetEvents (c : Cameras) (o : Owned) (st et : Time)
  : M (list Events * option error) :=
  let v := ∅ in
  let v := Values_Set "uuid" (Uuid o) v in
  let v := Values_Add "start_time" (Sprintf_d (Unix st)) v in
  let v := Values_Add "end_time" (Sprintf_d (sub64 (Unix et) (60 * 60 * 24))) v in
  let v := Values_Add "human" "True" v in
  this ← deref (Cameras_Dropcam c);
  '(response, err) ← getRequest (Cameras_Dropcam c) (EventPath this) v;
  match err with
  | Some _ => ret ([], Some "Get Visible Cameras Request Failed")
  | None =>
      match response with
      | None => panic nil_dereference
      | Some r =>
          '(body, err) ← ReadAll (Body r);
          match err with
          | Some _ => ret ([], Some "EVent ioutil.ReadAll failed")
          | None =>
              let '(event, err) := Unmarshal EventsT body (zero_value EventsT) in
              match err with
              | Some e => ret ([], Some e)
              | None => ret ([], None)
              end
          end
      end
  end.

(** A nil byte slice is the empty list. *)
Definition getImage (c : Cameras) (o : Owned) (width : Z) (st : Time)
  : M (list byte * option error) :=
  let v := ∅ in
  let v := Values_Set "uuid" (Uuid o) v in
  let v := Values_Add "width" (Sprintf_d width) v in
  this ← deref (Cameras_Dropcam c);
  '(response, err) ← getRequest (Cameras_Dropcam c) (CamerasGetImagePath this) v;
  match err with
  | Some _ => ret ([], Some "Get Image Failed")
  | None =>
      match response with
      | None => panic nil_dereference
      | Some r =>
          '(body, err) ← ReadAll (Body r);
          match err with
          | Some _ => ret ([], Some "Failed to get Reply Response Code")
          | None =>
              if negb (StatusCode r =? 200)
                 || String.eqb (Header_Get (Header r) "content-length") "0"
              then ret ([], Some "Malformed Request or image has 0 size")
              else ret (body, None)
          end
      end
  end.

Definition SaveImage (c : Cameras) (o : Owned) (path : string) (width : Z) (st : Time)
  : M (option error) :=
  '(img, err) ← getImage c o width st;
  match err with
  | Some e => ret (Some e)
  | None =>
      err ← WriteFile path img 420;
      match err with
      | Some e => ret (Some e)
      | None => ret None
      end
  end.

(** * Vocabulary of the statements, and scenarios *)

(** [frame w w']: from [w] to [w'] only the wire and the streams changed. *)
Definition frame (w w' : World) : Prop :=
  remote w' = remote w /\ library_attempts w' = library_attempts w /\
  heap w' = heap w /\ files w' = files w /\ disk w' = disk w.

(** [sent_between lo hi req w w']: from [w] to [w'] the request [req] went on
    the wire at least [lo] and at most [hi] times, and nothing else did. *)
Definition sent_between (lo hi : nat) (req : Request) (w w' : World) : Prop :=
  exists k : nat, (lo <= k <= hi)%nat /\ wire w' = (wire w ++ replicate k req)%list.

(** The request [getRequest] builds for a client whose cookie is [cookie]. *)
Definition get_request (cookie url : string) (v : gmap string (list string)) : Request :=
  Retry 3
    (InitialInterval Millisecond
       (Get (url +:+ "?" +:+ Values_Encode v)
          (if negb (String.eqb cookie EmptyString)
           then SetHeader "cookie" cookie New else New))).

(** The values [login] sends. *)
Definition login_query (this : Dropcam) : gmap string (list string) :=
  Values_Add "password" (Password (Creds this))
    (Values_Set "username" (Username (Creds this)) ∅).

(** The request [postRequest] builds for a client whose cookie is [cookie]. *)
Definition post_request (cookie url uuid : string) (data : json) : Request :=
  SetHeader "cookie" cookie
    (SetHeader "Referer" (ApiBase +:+ "/" +:+ "watch" +:+ "/" +:+ uuid)
       (Json data (InitialInterval Millisecond (Post url New)))).

(** The integer that [getBodyRespCode] finds under [status] in a body, if the
    body decodes. *)
Definition envelope_status (body : list byte) : option Z :=
  match Unmarshal BodyStatusT body (zero_value BodyStatusT) with
  | (v, None) => Some (BodyStatus_Status v)
  | (_, Some _) => None
  end.

(** The query of an image request. *)
Definition image_query (o : Owned) (width : Z) : gmap string (list string) :=
  Values_Add "width" (Sprintf_d width) (Values_Set "uuid" (Uuid o) ∅).

(** The client as [Init "alice" "secret"] sets it up, with [cookie] as its
    session cookie. *)
Definition session (cookie : string) : Dropcam :=
  let d := initialized "alice" "secret" in
  {| LoginPath := LoginPath d; CamerasGet := CamerasGet d;
     CamerasUpdate := CamerasUpdate d; CamerasGetVisible := CamerasGetVisible d;
     CamerasGetImagePath := CamerasGetImagePath d; EventPath := EventPath d;
     EventGetClipPath := EventGetClipPath d; PropertiesPath := PropertiesPath d;
     Creds := Creds d; Cookie := cookie |}.

(** A world with that one client at address 0, nothing sent yet, no files, a
    disk without faults, [server] at the other end and an HTTP library that
    makes [n] attempts when [Retry] is not called. *)
Definition world (n : nat) (server : nat -> Request -> RoundTrip) (cookie : string) : World :=
  {| remote := server; library_attempts := n; wire := []; streams := [];
     heap := [session cookie]; files := ∅; disk := fun _ => None |}.

Definition reply (code : Z) (header : gmap string (list string)) (body : string) : Reply :=
  {| reply_status := Sprintf_d code; reply_code := code; reply_header := header;
     reply_body := bytes_of_string body; reply_fault := None |}.

(** A server that gives the same answer to everything, one that never
    answers, and one that answers from the third round trip on. *)
Definition always (r : Reply) : nat -> Request -> RoundTrip := fun _ _ => Answer r.
Definition never : nat -> Request -> RoundTrip := fun _ _ => NoResponse "connection refused".
Definition third_time (r : Reply) : nat -> Request -> RoundTrip :=
  fun i _ => if (i <? 2)%nat then NoResponse "connection refused" else Answer r.

Definition front_door : Owned :=
  Owned_of (VStruct [("uuid", VString "u1"); ("title", VString "Front Door")]).

Definition cams : Cameras := {| Cameras_Dropcam := 0; Cameras_Cam := [front_door] |}.

(** The property-set scenario: the URL and the document of the POST. *)
Definition properties_url : string := "https://www.dropcam.com/app/cameras/propertiesu1".

Definition streaming_on : json :=
  Marshal_CamProp
    {| CamProp_UUID := "u1"; CamProp_Name := "streaming.enabled"; CamProp_Value := "true" |}.

(** HTTP 404 with a body that says 200. *)
Definition world_404_200 : World :=
  world 1 (always (reply 404 ∅ (q "{'status':200}"))) "abc123".

(** HTTP 200 with a body that says 200, and with one that says 403. *)
Definition world_200_200 : World :=
  world 1 (always (reply 200 ∅ (q "{'status':200}"))) "abc123".
Definition world_200_403 : World :=
  world 1 (always (reply 200 ∅ (q "{'status':403}"))) "abc123".
Definition world_200_500 : World :=
  world 1 (always (reply 200 ∅ (q "{'status':500}"))) "abc123".

(** [new(Dropcam)]: every field empty. *)
Definition new_Dropcam : Dropcam :=
  {| LoginPath := EmptyString; CamerasGet := EmptyString; CamerasUpdate := EmptyString;
     CamerasGetVisible := EmptyString; CamerasGetImagePath := EmptyString;
     EventPath := EmptyString; EventGetClipPath := EmptyString;
     PropertiesPath := EmptyString;
     Creds := {| Username := EmptyString; Password := EmptyString |};
     Cookie := EmptyString |}.

(** A fresh client, and a server whose first answer carries no cookie and
    whose later answers carry one. *)
Definition world_second_login : World :=
  {| remote :=
       fun i _ =>
         if (i =? 0)%nat then Answer (reply 200 ∅ (q "{'status':200}"))
         else Answer (reply 200 {[ "Set-Cookie" := ["abc123"] ]} (q "{'status':200}"));
     library_attempts := 1; wire := []; streams := []; heap := [new_Dropcam];
     files := ∅; disk := fun _ => None |}.

(** A client without a cookie and a login endpoint that issues one, and one
    that issues none. *)
Definition world_login_ok : World :=
  world 1 (always (reply 200 {[ "Set-Cookie" := ["abc123"] ]} (q "{'status':200}")))
    EmptyString.
Definition world_login_no_cookie : World :=
  world 1 (always (reply 200 ∅ (q "{'status':200}"))) EmptyString.

(** 2014-10-19 00:00:00 UTC. *)
Definition midnight : Time := {| seconds := 1413676800 |}.

(** An image endpoint that answers with no bytes, and one that answers with
    four. *)
Definition world_image_empty : World :=
  world 1 (always (reply 200 {[ "Content-Length" := ["0"] ]} EmptyString)) "abc123".

Definition world_image : World :=
  world 1 (always (reply 200 {[ "Content-Length" := ["4"] ]} "JPEG")) "abc123".

(** The camera list arrives, and then the reading of the body breaks off. *)
Definition world_cameras_truncated : World :=
  world 1
    (always
       {| reply_status := "200"; reply_code := 200; reply_header := ∅;
          reply_body :=
            bytes_of_string
              (q "{'items':[{'owned':[{'uuid':'u1','title':'Front Door'}]}],'status':200}");
          reply_fault := Some "unexpected EOF" |})
    "abc123".

(** An event endpoint that answers with three events. *)
Definition world_events : World :=
  world 1 (always (reply 200 ∅ (q "{'cuepoints':[{'id':1},{'id':2},{'id':3}]}"))) "abc123".

(** The client [this] with [cookie] as its session cookie and every other
    field as it was. *)
Definition with_cookie (this : Dropcam) (cookie : string) : Dropcam :=
  {| LoginPath := LoginPath this; CamerasGet := CamerasGet this;
     CamerasUpdate := CamerasUpdate this;
     CamerasGetVisible := CamerasGetVisible this;
     CamerasGetImagePath := CamerasGetImagePath this;
     EventPath := EventPath this;
     EventGetClipPath := EventGetClipPath this;
     PropertiesPath := PropertiesPath this;
     Creds := Creds this; Cookie := cookie |}.

(** The query of the camera-list request and of an event request. *)
Definition cameras_query : gmap string (list string) :=
  Values_Set "group_cameras" "True" ∅.

Definition event_query (o : Owned) (st et : Time) : gmap string (list string) :=
  Values_Add "human" "True"
    (Values_Add "end_time" (Sprintf_d (sub64 (Unix et) (60 * 60 * 24)))
       (Values_Add "start_time" (Sprintf_d (Unix st))
          (Values_Set "uuid" (Uuid o) ∅))).

(** The document of a property, as [SetProperties] hands it to [postRequest]. *)
Definition property_document (o : Owned) (name value : string) : json :=
  Marshal_CamProp
    {| CamProp_UUID := Uuid o; CamProp_Name := name; CamProp_Value := value |}.

(** A body that has been read: nothing is left of it. *)
Definition read_out (rb : nat) (s : Stream) (w : World) : World :=
  with_streams (fun ss => <[rb := {| unread := []; fault := fault s |}]> ss) w.

(** A camera list of two groups, and a camera-list endpoint that serves it. *)
Definition two_groups : string :=
  q "{'items':[{'owned':[{'uuid':'u1'},{'uuid':'u2'}]},{'owned':[{'uuid':'u3'}]}],'status':0}".

Definition world_cameras : World :=
  world 1 (always (reply 200 ∅ two_groups)) "abc123".

(** An event endpoint that answers with a JSON array. *)
Definition world_event_array : World :=
  world 1 (always (reply 200 ∅ (q "[{'id':1},{'id':2}]"))) "abc123".

(** An endpoint whose envelope has no status at all. *)
Definition world_no_status : World :=
  world 1 (always (reply 200 ∅ (q "{'message':'ok'}"))) "abc123".

(** A client that holds the session of alice, and a login endpoint that
    issues the cookie [xyz]. *)
Definition world_relogin : World :=
  world 1 (always (reply 200 {[ "Set-Cookie" := ["xyz"] ]} EmptyString)) "abc123".

(** A client without a cookie, and a server that issues a cookie and serves the
    camera list of two groups in every answer. *)
Definition world_service : World :=
  world 1 (always (reply 200 {[ "Set-Cookie" := ["abc123"] ]} two_groups)) EmptyString.

(** * Properties *)

(** ** What a run leaves alone *)

Lemma frame_refl w : frame w w.
Proof. by repeat split. Qed.

Lemma frame_trans w1 w2 w3 : frame w1 w2 -> frame w2 w3 -> frame w1 w3.
Proof.
  intros (? & ? & ? & ? & ?) (? & ? & ? & ? & ?).
  repeat split; congruence.
Qed.

Lemma frame_with_wire f w : frame w (with_wire f w).
Proof. by repeat split. Qed.

Lemma frame_with_streams f w : frame w (with_streams f w).
Proof. by repeat split. Qed.

Create HintDb frame_db.
#[export] Hint Resolve frame_refl frame_with_wire frame_with_streams : frame_db.

Ltac monad_unfold :=
  unfold mbind, mret, M_bind, M_ret, bind, ret, panic in *.

(** ** The HTTP library *)

(** What one attempt does, in one equation. *)
Lemma attempt_eq req w :
  attempt req w =
  match remote w (length (wire w)) req with
  | NoResponse e => (Ret (None, Some e), with_wire (fun l => (l ++ [req])%list) w)
  | Answer r =>
      (Ret (Some {| Status := reply_status r; StatusCode := reply_code r;
                    Header := reply_header r; Body := length (streams w) |}, None),
       with_streams
         (fun ss => (ss ++ [{| unread := reply_body r; fault := reply_fault r |}])%list)
         (with_wire (fun l => (l ++ [req])%list) w))
  end.
Proof. reflexivity. Qed.

Lemma attempts_eq more req w :
  attempts more req w =
  match attempt req w with
  | (Ret (resp, Some e), w') =>
      match more with
      | S more' => attempts more' req w'
      | O => (Ret (resp, Some e), w')
      end
  | (Ret (resp, None), w') => (Ret (resp, None), w')
  | (Panic why, w') => (Panic why, w')
  end.
Proof.
  destruct more; simpl; monad_unfold;
    destruct (attempt req w) as [[[resp [e|]]|why] w']; reflexivity.
Qed.

(** The result of [attempts]: between one and [S more] copies of the request
    went on the wire; with a response, its body is a fresh stream holding what
    the server sent; without one, every allowed attempt was made. *)
Lemma attempts_spec more req w res w' :
  attempts more req w = (res, w') ->
  frame w w' /\
  match res with
  | Ret (Some r, None) =>
      sent_between 1 (S more) req w w' /\
      Body r = length (streams w) /\
      exists rep i,
        remote w i req = Answer rep /\
        Status r = reply_status rep /\ StatusCode r = reply_code rep /\
        Header r = reply_header rep /\
        streams w' =
          (streams w ++ [{| unread := reply_body rep; fault := reply_fault rep |}])%list
  | Ret (None, Some e) =>
      sent_between (S more) (S more) req w w' /\ streams w' = streams w
  | _ => False
  end.
Proof.
  revert w res w'. induction more as [|more IH]; intros w res w';
    rewrite attempts_eq, attempt_eq;
    destruct (remote w (length (wire w)) req) as [e|rep] eqn:Hr.
  - intros [= <- <-]. split; [auto with frame_db|].
    split; [|done]. exists 1%nat. split; [lia|done].
  - intros [= <- <-]. split.
    { eapply frame_trans; [apply frame_with_wire | apply frame_with_streams]. }
    split; [exists 1%nat; split; [lia|done]|].
    split; [done|]. exists rep, (length (wire w)). by repeat split.
  - intros H. apply IH in H as [Hf H]. split.
    { eapply frame_trans; [apply frame_with_wire | exact Hf]. }
    assert (Hsent : forall lo lo' hi,
               (lo' <= S lo)%nat ->
               sent_between lo hi req (with_wire (fun l => (l ++ [req])%list) w) w' ->
               sent_between lo' (S hi) req w w').
    { intros lo lo' hi Hlo (k & Hk & Hw). exists (S k). split; [lia|].
      rewrite Hw. simpl. by rewrite <- app_assoc. }
    destruct res as [[[r|] [e'|]]|]; try done.
    + destruct H as (Hs & Hb & rep & i & Hrem & Hrest).
      split; [by eapply Hsent; [|exact Hs]; lia|]. split; [done|]. by exists rep, i.
    + destruct H as [Hs Hst]. split; [by eapply Hsent; [|exact Hs]; lia | done].
  - intros [= <- <-]. split.
    { eapply frame_trans; [apply frame_with_wire | apply frame_with_streams]. }
    split; [exists 1%nat; split; [lia|done]|].
    split; [done|]. exists rep, (length (wire w)). by repeat split.
Qed.

Lemma Send_eq req w :
  Send req w =
  attempts (Nat.pred (match Retries req with
                      | Some n => Z.to_nat n
                      | None => library_attempts w
                      end)) req w.
Proof. reflexivity. Qed.

(** [ReadAll] on a stream that exists. *)
Lemma ReadAll_eq rb w s :
  streams w !! rb = Some s ->
  ReadAll rb w =
  (Ret (unread s, fault s),
   with_streams (fun ss => <[rb := {| unread := []; fault := fault s |}]> ss) w).
Proof. intros H. unfold ReadAll. by rewrite H. Qed.

Lemma deref_eq d w this :
  heap w !! d = Some this -> deref d w = (Ret this, w).
Proof. intros H. unfold deref. by rewrite H. Qed.

(** ** [getRequest] *)

Lemma getRequest_eq d url v w this :
  heap w !! d = Some this ->
  getRequest d url v w =
  match attempts 2 (get_request (Cookie this) url v) w with
  | (Ret (_, Some e), w') => (Ret (None, Some e), w')
  | (Ret (resp, None), w') => (Ret (resp, None), w')
  | (Panic why, w') => (Panic why, w')
  end.
Proof.
  intros Hd. unfold getRequest. monad_unfold. rewrite (deref_eq _ _ _ Hd).
  rewrite Send_eq. unfold get_request. cbn [Retries Retry].
  change (Nat.pred (Z.to_nat 3)) with 2%nat.
  destruct (attempts 2 _ w) as [[[resp [e|]]|why] w']; reflexivity.
Qed.

Lemma getRequest_spec d url v w this res w' :
  heap w !! d = Some this ->
  getRequest d url v w = (res, w') ->
  frame w w' /\
  match res with
  | Ret (Some r, None) =>
      sent_between 1 3 (get_request (Cookie this) url v) w w' /\
      Body r = length (streams w) /\
      exists rep i,
        remote w i (get_request (Cookie this) url v) = Answer rep /\
        Status r = reply_status rep /\ StatusCode r = reply_code rep /\
        Header r = reply_header rep /\
        streams w' =
          (streams w ++ [{| unread := reply_body rep; fault := reply_fault rep |}])%list
  | Ret (None, Some e) =>
      sent_between 3 3 (get_request (Cookie this) url v) w w' /\ streams w' = streams w
  | _ => False
  end.
Proof.
  intros Hd. rewrite (getRequest_eq _ _ _ _ _ Hd).
  destruct (attempts 2 _ w) as [res0 w0] eqn:Ha.
  apply attempts_spec in Ha as [Hf Ha].
  destruct res0 as [[[r|] [e|]]|why]; try done; intros [= <- <-]; by split.
Qed.

(** The body of a response that [getRequest] returned is there to be read. *)
Lemma getRequest_body d url v w this r w' :
  heap w !! d = Some this ->
  getRequest d url v w = (Ret (Some r, None), w') ->
  exists s, streams w' !! Body r = Some s.
Proof.
  intros Hd H. apply (getRequest_spec _ _ _ _ _ _ _ Hd) in H as [_ (_ & Hb & rep & i & _ & _ & _ & _ & Hs)].
  eexists. rewrite Hs, Hb. by apply list_lookup_middle.
Qed.

(** ** C3: a login that gets no cookie *)

Lemma login_no_cookie d w this r w1 :
  heap w !! d = Some this ->
  getRequest d (LoginPath this) (login_query this) w = (Ret (Some r, None), w1) ->
  Header_Get (Header r) "Set-Cookie" = EmptyString ->
  exists w',
    login d w = (Ret (Some "Login Returned No Cookie"), w') /\
    Cookie <$> heap w' !! d = Some EmptyString.
Proof.
  intros Hd Hg Hc.
  pose proof (getRequest_spec _ _ _ _ _ _ _ Hd Hg) as [(_ & _ & Hh & _) _].
  assert (Hd1 : heap w1 !! d = Some this) by (by rewrite Hh).
  unfold login_query in Hg. unfold login. monad_unfold.
  rewrite (deref_eq _ _ _ Hd), Hg, (deref_eq _ _ _ Hd1).
  unfold store. rewrite Hd1, Hc. simpl.
  eexists. split; [reflexivity|]. simpl.
  rewrite list_lookup_insert_eq; [done|]. by eapply lookup_lt_Some.
Qed.

(** C3.  Whenever the login request gets a response (so the transport did not
    fail) and the response has no value under [Set-Cookie], [login] returns
    the error "Login Returned No Cookie" and the [Cookie] field of the client
    is empty afterwards. *)
Theorem login_without_cookie d w this r w1 :
  heap w !! d = Some this ->
  getRequest d (LoginPath this) (login_query this) w = (Ret (Some r, None), w1) ->
  Header_Get (Header r) "Set-Cookie" = EmptyString ->
  exists w',
    login d w = (Ret (Some "Login Returned No Cookie"), w') /\
    Cookie <$> heap w' !! d = Some EmptyString.
Proof. apply login_no_cookie. Qed.

(** The same through [Init]: it returns nil and that error. *)
Lemma Init_without_cookie d w old username password r w1 :
  heap w !! d = Some old ->
  getRequest d (LoginPath (initialized username password))
    (login_query (initialized username password))
    (with_heap (fun h => <[d := initialized username password]> h) w)
  = (Ret (Some r, None), w1) ->
  Header_Get (Header r) "Set-Cookie" = EmptyString ->
  exists w',
    Init d username password w = (Ret (None, Some "Login Returned No Cookie"), w') /\
    Cookie <$> heap w' !! d = Some EmptyString.
Proof.
  intros Hd Hg Hc. unfold Init, store. monad_unfold. rewrite Hd.
  assert (Hd0 : heap (with_heap (fun h => <[d := initialized username password]> h) w) !! d
                = Some (initialized username password)).
  { simpl. apply list_lookup_insert_eq. by eapply lookup_lt_Some. }
  destruct (login_no_cookie _ _ _ _ _ Hd0 Hg Hc) as (w' & -> & Hcookie).
  by exists w'.
Qed.

(** ** The envelope check of [postRequest] *)

Lemma getBodyRespCode_eq rb w s :
  streams w !! rb = Some s ->
  getBodyRespCode rb w =
  (Ret (match Unmarshal BodyStatusT (unread s) (zero_value BodyStatusT) with
        | (_, Some e) => (0, Some e)
        | (v, None) => (BodyStatus_Status v, None)
        end),
   with_streams (fun ss => <[rb := {| unread := []; fault := fault s |}]> ss) w).
Proof.
  intros Hs. unfold getBodyRespCode. monad_unfold. rewrite (ReadAll_eq _ _ _ Hs).
  by destruct (Unmarshal _ _ _) as [v [e|]].
Qed.

(** Once read, a body has nothing left. *)
Lemma drained rb w s :
  streams w !! rb = Some s ->
  streams (with_streams (fun ss => <[rb := {| unread := []; fault := fault s |}]> ss) w) !! rb
  = Some {| unread := []; fault := fault s |}.
Proof.
  intros Hs. simpl. apply list_lookup_insert_eq. by eapply lookup_lt_Some.
Qed.

Lemma postRequest_eq d url uuid data w this :
  heap w !! d = Some this ->
  postRequest d url uuid data w =
  match Send (post_request (Cookie this) url uuid data) w with
  | (Ret (None, _), w1) => (Panic nil_dereference, w1)
  | (Ret (Some r, _), w1) =>
      match getBodyRespCode (Body r) w1 with
      | (Ret (_, Some _), w2) => (Ret (None, Some "Failed to get Reply Response Code"), w2)
      | (Ret (rc, None), w2) =>
          if negb (rc =? 200) then (Ret (None, Some "Malformed Request"), w2)
          else (Ret (Some r, None), w2)
      | (Panic why, w2) => (Panic why, w2)
      end
  | (Panic why, w1) => (Panic why, w1)
  end.
Proof.
  intros Hd. unfold postRequest. monad_unfold. rewrite (deref_eq _ _ _ Hd).
  fold (post_request (Cookie this) url uuid data).
  destruct (Send _ w) as [[[[r|] e]|why] w1]; try reflexivity.
  destruct (getBodyRespCode (Body r) w1) as [[[rc [e'|]]|why] w2]; try reflexivity.
  by destruct (negb (rc =? 200)).
Qed.

(** What [postRequest] returns once [Send] has brought back a response whose
    body is [s]: the response itself when the body's status is 200, an error
    otherwise.  Either way the body has been read to its end. *)
Lemma postRequest_answered d url uuid data w this r e w1 s :
  heap w !! d = Some this ->
  Send (post_request (Cookie this) url uuid data) w = (Ret (Some r, e), w1) ->
  streams w1 !! Body r = Some s ->
  let w2 := with_streams (fun ss => <[Body r := {| unread := []; fault := fault s |}]> ss) w1 in
  postRequest d url uuid data w =
  match envelope_status (unread s) with
  | Some rc =>
      if rc =? 200 then (Ret (Some r, None), w2)
      else (Ret (None, Some "Malformed Request"), w2)
  | None => (Ret (None, Some "Failed to get Reply Response Code"), w2)
  end.
Proof.
  intros Hd HS Hs w2. rewrite (postRequest_eq _ _ _ _ _ _ Hd), HS.
  rewrite (getBodyRespCode_eq _ _ _ Hs). unfold envelope_status.
  destruct (Unmarshal _ _ _) as [v [e'|]]; [done|].
  by destruct (BodyStatus_Status v =? 200).
Qed.

(** C1, as the code has it.  For every response that [Send] brings back to
    [postRequest], the call yields a non-error result exactly when the body
    decodes and its integer [status] is 200; otherwise it yields an error and
    no response.  The HTTP status code of the response plays no part: the
    statement holds for every [StatusCode r]. *)
Theorem postRequest_success_iff_body_status d url uuid data w this r w1 s :
  heap w !! d = Some this ->
  Send (post_request (Cookie this) url uuid data) w = (Ret (Some r, None), w1) ->
  streams w1 !! Body r = Some s ->
  ((exists w', postRequest d url uuid data w = (Ret (Some r, None), w')) <->
   envelope_status (unread s) = Some 200) /\
  (envelope_status (unread s) <> Some 200 ->
   exists e w', postRequest d url uuid data w = (Ret (None, Some e), w')).
Proof.
  intros Hd HS Hs. rewrite (postRequest_answered _ _ _ _ _ _ _ _ _ _ Hd HS Hs).
  destruct (envelope_status (unread s)) as [rc|].
  - destruct (Z.eqb_spec rc 200) as [->|Hne].
    + split; [split; eauto | done].
    + split; [split; [by intros [? [=]] | by intros [=]] | eauto].
  - split; [split; [by intros [? [=]] | done] | eauto].
Qed.

(** ** [SetProperties] *)

Lemma Unmarshal_nothing t old : Unmarshal t [] old = (old, Some syntax_error).
Proof. reflexivity. Qed.

Lemma SetProperties_eq c o name value w this :
  heap w !! Cameras_Dropcam c = Some this ->
  SetProperties c o name value w =
  match
    postRequest (Cameras_Dropcam c) (PropertiesPath this +:+ Uuid o) (Uuid o)
      (Marshal_CamProp
         {| CamProp_UUID := Uuid o; CamProp_Name := name; CamProp_Value := value |}) w
  with
  | (Ret (_, Some _), w1) => (Ret (false, Some "Failed postRequest "), w1)
  | (Ret (None, None), w1) => (Panic nil_dereference, w1)
  | (Ret (Some r, None), w1) =>
      match getBodyRespCode (Body r) w1 with
      | (Ret (_, Some _), w2) => (Ret (false, Some "Failed to get Reply Response Code"), w2)
      | (Ret (rc, None), w2) =>
          if negb (rc =? 200) then (Ret (false, Some "SeProperties Malformed Request"), w2)
          else (Ret (true, None), w2)
      | (Panic why, w2) => (Panic why, w2)
      end
  | (Panic why, w1) => (Panic why, w1)
  end.
Proof.
  intros Hd. unfold SetProperties. monad_unfold. rewrite (deref_eq _ _ _ Hd).
  destruct (postRequest _ _ _ _ w) as [[[[r|] [e|]]|why] w1]; try reflexivity.
  destruct (getBodyRespCode (Body r) w1) as [[[rc [e'|]]|why] w2]; try reflexivity.
  by destruct (negb (rc =? 200)).
Qed.

(** When [postRequest] hands a response back, its body has already been read
    to the end. *)
Lemma postRequest_leaves_body_empty d url uuid data w r w' :
  postRequest d url uuid data w = (Ret (Some r, None), w') ->
  exists s, streams w' !! Body r = Some s /\ unread s = [].
Proof.
  destruct (heap w !! d) as [this|] eqn:Hd.
  - rewrite (postRequest_eq _ _ _ _ _ _ Hd).
    destruct (Send _ w) as [[[[r0|] e]|why] w1]; try done.
    destruct (streams w1 !! Body r0) as [s|] eqn:Hs.
    + rewrite (getBodyRespCode_eq _ _ _ Hs).
      destruct (Unmarshal _ _ _) as [v [e'|]]; [done|].
      destruct (negb (_ =? 200)); [done|]. intros [= <- <-].
      eexists. split; [by apply drained | done].
    + unfold getBodyRespCode, ReadAll. monad_unfold. by rewrite Hs.
  - unfold postRequest, deref. monad_unfold. by rewrite Hd.
Qed.

(** The second [getBodyRespCode], the one in [SetProperties], therefore reads
    nothing, fails to decode it, and [SetProperties] reports a failure: it
    never returns [true]. *)
Lemma SetProperties_never_true c o name value w b err w' :
  SetProperties c o name value w = (Ret (b, err), w') ->
  b = false /\ is_Some err.
Proof.
  destruct (heap w !! Cameras_Dropcam c) as [this|] eqn:Hd.
  - rewrite (SetProperties_eq _ _ _ _ _ _ Hd).
    destruct (postRequest _ _ _ _ w) as [[[[r|] [e|]]|why] w1] eqn:Hp; try done.
    + intros [= <- <- <-]. eauto.
    + apply postRequest_leaves_body_empty in Hp as (s & Hs & Hempty).
      rewrite (getBodyRespCode_eq _ _ _ Hs), Hempty, Unmarshal_nothing.
      intros [= <- <- <-]. eauto.
    + intros [= <- <- <-]. eauto.
  - unfold SetProperties, deref. monad_unfold. by rewrite Hd.
Qed.

Lemma getBodyRespCode_wire rb w res w' :
  getBodyRespCode rb w = (res, w') -> wire w' = wire w.
Proof.
  unfold getBodyRespCode, ReadAll. monad_unfold.
  destruct (streams w !! rb); [|by intros [= <- <-]].
  destruct (Unmarshal _ _ _) as [? [?|]]; by intros [= <- <-].
Qed.

(** What goes on the wire is the POST with the three fields of the property
    as its JSON body, once per attempt of the library. *)
Lemma SetProperties_posts c o name value w this res w' :
  heap w !! Cameras_Dropcam c = Some this ->
  SetProperties c o name value w = (res, w') ->
  exists k req,
    (1 <= k)%nat /\ wire w' = (wire w ++ replicate k req)%list /\
    Method req = "POST" /\
    Url req = PropertiesPath this +:+ Uuid o /\
    JsonBody req =
      Some (JObj [("camera_uuid", JStr (Uuid o)); ("name", JStr name);
                  ("value", JStr value)]).
Proof.
  intros Hd. rewrite (SetProperties_eq _ _ _ _ _ _ Hd), (postRequest_eq _ _ _ _ _ _ Hd).
  rewrite Send_eq.
  set (req := post_request _ _ _ _). set (n := Nat.pred _).
  destruct (attempts n req w) as [res0 w1] eqn:Ha.
  apply attempts_spec in Ha as [_ Ha].
  assert (Hsent : wire w' = wire w1 -> sent_between 1 (S n) req w w1 ->
            exists k req0,
              (1 <= k)%nat /\ wire w' = (wire w ++ replicate k req0)%list /\
              Method req0 = "POST" /\ Url req0 = PropertiesPath this +:+ Uuid o /\
              JsonBody req0 =
                Some (JObj [("camera_uuid", JStr (Uuid o)); ("name", JStr name);
                            ("value", JStr value)])).
  { intros Hw (k & Hk & Hwire). exists k, req. rewrite Hw.
    repeat split; [lia | done]. }
  destruct res0 as [[[r|] [e|]]|why]; try done.
  - destruct Ha as [Hs _].
    destruct (getBodyRespCode (Body r) w1) as [res1 w2] eqn:Hg.
    apply getBodyRespCode_wire in Hg.
    destruct res1 as [[rc [e'|]]|why]; [| destruct (negb (rc =? 200)) |];
      try (intros [= <- <-]; by apply Hsent).
    destruct (getBodyRespCode (Body r) w2) as [res2 w3] eqn:Hg2.
    apply getBodyRespCode_wire in Hg2.
    destruct res2 as [[rc2 [e2|]]|why]; [| destruct (negb (rc2 =? 200)) |];
      intros [= <- <-]; apply Hsent; congruence.
  - destruct Ha as [(k & Hk & Hwire) _]. intros [= <- <-].
    apply Hsent; [done|]. exists k. split; [lia | done].
Qed.

(** When the body's status is not 200 (or the body does not decode),
    [SetProperties] returns the one error it has for a failed [postRequest];
    the status itself is not part of it. *)
Lemma SetProperties_rejected c o name value w this r e w1 s :
  heap w !! Cameras_Dropcam c = Some this ->
  Send (post_request (Cookie this) (PropertiesPath this +:+ Uuid o) (Uuid o)
          (Marshal_CamProp
             {| CamProp_UUID := Uuid o; CamProp_Name := name; CamProp_Value := value |})) w
  = (Ret (Some r, e), w1) ->
  streams w1 !! Body r = Some s ->
  envelope_status (unread s) <> Some 200 ->
  exists w', SetProperties c o name value w = (Ret (false, Some "Failed postRequest "), w').
Proof.
  intros Hd HS Hs Hne. rewrite (SetProperties_eq _ _ _ _ _ _ Hd).
  rewrite (postRequest_answered _ _ _ _ _ _ _ _ _ _ Hd HS Hs).
  destruct (envelope_status (unread s)) as [rc|]; [|eauto].
  destruct (Z.eqb_spec rc 200) as [->|?]; [done | eauto].
Qed.

(** ** Retries *)

(** A transport that never gets a response: every allowed attempt is made and
    the result is no response and an error. *)
Lemma attempts_all_fail more req w :
  (forall i, exists e, remote w i req = NoResponse e) ->
  exists e w',
    attempts more req w = (Ret (None, Some e), w') /\
    wire w' = (wire w ++ replicate (S more) req)%list /\
    streams w' = streams w.
Proof.
  revert w. induction more as [|more IH]; intros w Hdead;
    rewrite attempts_eq, attempt_eq;
    destruct (Hdead (length (wire w))) as [e ->].
  - by exists e, (with_wire (fun l => (l ++ [req])%list) w).
  - destruct (IH (with_wire (fun l => (l ++ [req])%list) w) Hdead) as (e' & w' & -> & Hw & Hs).
    exists e', w'. split; [done|]. split; [|done].
    rewrite Hw. simpl. by rewrite <- app_assoc.
Qed.

(** GET: a transport that always fails makes [getRequest] return an error
    after exactly three attempts. *)
Lemma getRequest_gives_up_after_three d url v w this :
  heap w !! d = Some this ->
  (forall i, exists e, remote w i (get_request (Cookie this) url v) = NoResponse e) ->
  exists e w',
    getRequest d url v w = (Ret (None, Some e), w') /\
    wire w' = (wire w ++ replicate 3 (get_request (Cookie this) url v))%list.
Proof.
  intros Hd Hdead. rewrite (getRequest_eq _ _ _ _ _ Hd).
  destruct (attempts_all_fail 2 _ w Hdead) as (e & w' & -> & Hw & _).
  by exists e, w'.
Qed.

(** GET: a transport that fails twice and then answers makes [getRequest]
    return the answer after exactly three attempts. *)
Lemma getRequest_third_attempt d url v w this e1 e2 rep :
  heap w !! d = Some this ->
  let req := get_request (Cookie this) url v in
  remote w (length (wire w)) req = NoResponse e1 ->
  remote w (S (length (wire w))) req = NoResponse e2 ->
  remote w (S (S (length (wire w)))) req = Answer rep ->
  exists r w',
    getRequest d url v w = (Ret (Some r, None), w') /\
    StatusCode r = reply_code rep /\
    wire w' = (wire w ++ replicate 3 req)%list.
Proof.
  intros Hd req H1 H2 H3. rewrite (getRequest_eq _ _ _ _ _ Hd). fold req.
  rewrite attempts_eq, attempt_eq, H1.
  rewrite attempts_eq, attempt_eq. simpl wire. simpl remote.
  rewrite length_app, Nat.add_1_r, H2.
  rewrite attempts_eq, attempt_eq. simpl wire. simpl remote.
  rewrite !length_app. simpl length. rewrite !Nat.add_1_r, H3.
  eexists _, _. split; [reflexivity|]. split; [done|].
  simpl. by rewrite <- !app_assoc.
Qed.

(** POST: [Retry] is never called, so the number of attempts is the library's
    own; and with no response at all, [postRequest] does not return the error
    but dereferences the missing response. *)
Lemma postRequest_without_response d url uuid data w this :
  heap w !! d = Some this ->
  (forall i, exists e, remote w i (post_request (Cookie this) url uuid data) = NoResponse e) ->
  exists w',
    postRequest d url uuid data w = (Panic nil_dereference, w') /\
    wire w' =
      (wire w ++ replicate (Nat.max 1 (library_attempts w))
                   (post_request (Cookie this) url uuid data))%list.
Proof.
  intros Hd Hdead. rewrite (postRequest_eq _ _ _ _ _ _ Hd), Send_eq.
  change (Retries (post_request (Cookie this) url uuid data)) with (@None Z).
  destruct (attempts_all_fail (Nat.pred (library_attempts w)) _ w Hdead)
    as (e & w' & -> & Hw & _).
  exists w'. split; [done|]. rewrite Hw. f_equal. f_equal. lia.
Qed.

(** ** Images *)

Lemma ReadAll_frame rb w res w' : ReadAll rb w = (res, w') -> frame w w' /\ wire w' = wire w.
Proof.
  unfold ReadAll. destruct (streams w !! rb); intros [= <- <-]; split;
    auto with frame_db.
Qed.

Lemma getImage_eq c o width st w this :
  heap w !! Cameras_Dropcam c = Some this ->
  getImage c o width st w =
  match
    getRequest (Cameras_Dropcam c) (CamerasGetImagePath this) (image_query o width) w
  with
  | (Ret (_, Some _), w1) => (Ret ([], Some "Get Image Failed"), w1)
  | (Ret (None, None), w1) => (Panic nil_dereference, w1)
  | (Ret (Some r, None), w1) =>
      match ReadAll (Body r) w1 with
      | (Ret (_, Some _), w2) => (Ret ([], Some "Failed to get Reply Response Code"), w2)
      | (Ret (body, None), w2) =>
          if negb (StatusCode r =? 200)
             || String.eqb (Header_Get (Header r) "content-length") "0"
          then (Ret ([], Some "Malformed Request or image has 0 size"), w2)
          else (Ret (body, None), w2)
      | (Panic why, w2) => (Panic why, w2)
      end
  | (Panic why, w1) => (Panic why, w1)
  end.
Proof.
  intros Hd. unfold getImage. monad_unfold. rewrite (deref_eq _ _ _ Hd).
  fold (image_query o width).
  destruct (getRequest _ _ _ w) as [[[[r|] [e|]]|why] w1]; try reflexivity.
  destruct (ReadAll (Body r) w1) as [[[body [e'|]]|why] w2]; try reflexivity.
  by destruct (_ || _).
Qed.

(** [getImage] writes no file and changes no client. *)
Lemma getImage_frame c o width st w res w' :
  getImage c o width st w = (res, w') -> frame w w'.
Proof.
  destruct (heap w !! Cameras_Dropcam c) as [this|] eqn:Hd.
  - rewrite (getImage_eq _ _ _ _ _ _ Hd).
    destruct (getRequest _ _ _ w) as [res1 w1] eqn:Hg.
    apply (getRequest_spec _ _ _ _ _ _ _ Hd) in Hg as [Hf Hg].
    destruct res1 as [[[r|] [e|]]|why]; try done; [|by intros [= <- <-]].
    destruct (ReadAll (Body r) w1) as [res2 w2] eqn:Hr.
    apply ReadAll_frame in Hr as [Hf2 _].
    destruct res2 as [[body [e'|]]|why]; [| destruct (_ || _) |];
      intros [= <- <-]; by eapply frame_trans.
  - unfold getImage, deref. monad_unfold. rewrite Hd. intros [= <- <-].
    apply frame_refl.
Qed.

(** C6.  Take any image fetch whose request got a response [r].  If [r] has
    status code 200 and its [content-length] header is "0", [getImage] returns
    an error and no bytes: the error for a malformed request or an image of
    size zero, unless reading the body failed first.  And whenever [getImage]
    returns without an error, [r] has status code 200 and a [content-length]
    header other than "0". *)
Theorem getImage_needs_200_and_length c o width st w this r w1 :
  heap w !! Cameras_Dropcam c = Some this ->
  getRequest (Cameras_Dropcam c) (CamerasGetImagePath this) (image_query o width) w
  = (Ret (Some r, None), w1) ->
  (StatusCode r = 200 ->
   Header_Get (Header r) "content-length" = "0" ->
   exists e w',
     getImage c o width st w = (Ret ([], Some e), w') /\
     (e = "Malformed Request or image has 0 size" \/
      e = "Failed to get Reply Response Code")) /\
  (forall img w',
     getImage c o width st w = (Ret (img, None), w') ->
     StatusCode r = 200 /\ Header_Get (Header r) "content-length" <> "0").
Proof.
  intros Hd Hg. destruct (getRequest_body _ _ _ _ _ _ _ Hd Hg) as [s Hs].
  rewrite (getImage_eq _ _ _ _ _ _ Hd), Hg, (ReadAll_eq _ _ _ Hs). split.
  - intros Hc Hl. rewrite Hc, Hl. simpl. destruct (fault s); eauto.
  - intros img w'. destruct (fault s); [done|].
    destruct (Z.eqb_spec (StatusCode r) 200) as [Hc|Hc]; [|done].
    destruct (String.eqb_spec (Header_Get (Header r) "content-length") "0") as [Hl|Hl];
      [done|]. by intros _.
Qed.

(** ** [SaveImage] *)

Lemma SaveImage_eq c o path width st w :
  SaveImage c o path width st w =
  match getImage c o width st w with
  | (Ret (_, Some e), w1) => (Ret (Some e), w1)
  | (Ret (img, None), w1) => WriteFile path img 420 w1
  | (Panic why, w1) => (Panic why, w1)
  end.
Proof.
  unfold SaveImage. monad_unfold.
  destruct (getImage c o width st w) as [[[img [e|]]|why] w1]; try reflexivity.
  unfold WriteFile. by destruct (disk w1 path) as [[e|n e]|].
Qed.


(** ** Events *)

(** C9.  Whenever [GetEvents] completes without an error, the list it returns
    is nil, whatever the body of the response held. *)
Theorem GetEvents_returns_nil c o st et w evs w' :
  GetEvents c o st et w = (Ret (evs, None), w') -> evs = [].
Proof.
  unfold GetEvents. monad_unfold.
  destruct (deref _ w) as [[this|why] w0]; [|done].
  destruct (getRequest _ _ _ w0) as [[[[r|] [e|]]|why] w1]; try done;
    try (by intros [= <- _]).
  destruct (ReadAll (Body r) w1) as [[[body [e'|]]|why] w2]; try done.
  destruct (Unmarshal EventsT body _) as [ev [e''|]]; by intros [= <- _].
Qed.

(** The query of an event request, encoded: the keys come out sorted. *)
Lemma Encode_event_query (uuid st et : string) :
  Values_Encode
    (Values_Add "human" "True"
       (Values_Add "end_time" et
          (Values_Add "start_time" st (Values_Set "uuid" uuid ∅))))
  = "end_time=" +:+ QueryEscape et +:+ "&human=True&start_time=" +:+ QueryEscape st
    +:+ "&uuid=" +:+ QueryEscape uuid.
Proof. vm_compute. reflexivity. Qed.

(** A decimal number needs no escaping. *)
Lemma code_char_of z : 0 <= z < 256 -> code (char_of z) = z.
Proof.
  intros Hz. unfold code, char_of. rewrite N_ascii_embedding; lia.
Qed.

Lemma digits_of_are_digits fuel n acc :
  0 <= n -> forallb is_digit acc = true -> forallb is_digit (digits_of fuel n acc) = true.
Proof.
  revert n acc. induction fuel as [|fuel IH]; intros n acc Hn Hacc; simpl; [done|].
  assert (Hd : forallb is_digit (char_of (48 + n mod 10) :: acc) = true).
  { simpl. rewrite Hacc, andb_true_r. unfold is_digit.
    pose proof (Z.mod_pos_bound n 10 ltac:(lia)).
    rewrite code_char_of by lia. apply andb_true_iff. split; lia. }
  destruct (n / 10 =? 0); [done|]. apply IH; [|done]. by apply Z.div_pos.
Qed.

Lemma escape_unreserved l :
  forallb unreserved l = true -> flat_map escape_char l = l.
Proof.
  induction l as [|c l IH]; simpl; [done|]. intros [Hc Hl]%andb_true_iff.
  unfold escape_char at 1. rewrite Hc. simpl. by rewrite IH.
Qed.

Lemma digit_unreserved c : is_digit c = true -> unreserved c = true.
Proof. unfold unreserved. intros ->. by rewrite !orb_true_r. Qed.

Lemma chars_unchars l : chars (unchars l) = l.
Proof. apply list_ascii_of_string_of_list_ascii. Qed.

Lemma unchars_chars s : unchars (chars s) = s.
Proof. apply string_of_list_ascii_of_string. Qed.

Lemma QueryEscape_Sprintf_d n : QueryEscape (Sprintf_d n) = Sprintf_d n.
Proof.
  unfold QueryEscape. rewrite <- (unchars_chars (Sprintf_d n)) at 2. f_equal.
  apply escape_unreserved. unfold Sprintf_d.
  set (ds := digits_of _ _ _).
  assert (Hds : forallb unreserved ds = true).
  { apply forallb_forall. intros c Hc. apply digit_unreserved.
    pose proof (digits_of_are_digits (S (Z.to_nat (Z.log2 (Z.abs n)))) (Z.abs n) []
                  (Z.abs_nonneg n) eq_refl) as Hall.
    rewrite forallb_forall in Hall. by apply Hall. }
  destruct (n <? 0); [|by rewrite chars_unchars].
  change (chars (String "-" (unchars ds))) with ("-"%char :: chars (unchars ds)).
  rewrite chars_unchars. simpl. by rewrite Hds.
Qed.

(** Within range the 64-bit subtraction is the subtraction. *)
Lemma wrap64_in_range z : min_int64 <= z <= max_int64 -> wrap64 z = z.
Proof.
  unfold wrap64, min_int64, max_int64. intros Hz.
  rewrite Z.mod_small; lia.
Qed.

Lemma wrap64_range z : min_int64 <= wrap64 z <= max_int64.
Proof.
  unfold wrap64, min_int64, max_int64.
  pose proof (Z.mod_pos_bound (z + 2 ^ 63) (2 ^ 64) ltac:(lia)). lia.
Qed.

Lemma sub64_exact a b : min_int64 <= a - b <= max_int64 -> sub64 a b = a - b.
Proof. apply wrap64_in_range. Qed.

Lemma GetEvents_eq c o st et w this :
  heap w !! Cameras_Dropcam c = Some this ->
  GetEvents c o st et w =
  match
    getRequest (Cameras_Dropcam c) (EventPath this)
      (Values_Add "human" "True"
         (Values_Add "end_time" (Sprintf_d (sub64 (Unix et) (60 * 60 * 24)))
            (Values_Add "start_time" (Sprintf_d (Unix st))
               (Values_Set "uuid" (Uuid o) ∅)))) w
  with
  | (Ret (_, Some _), w1) => (Ret ([], Some "Get Visible Cameras Request Failed"), w1)
  | (Ret (None, None), w1) => (Panic nil_dereference, w1)
  | (Ret (Some r, None), w1) =>
      match ReadAll (Body r) w1 with
      | (Ret (_, Some _), w2) => (Ret ([], Some "EVent ioutil.ReadAll failed"), w2)
      | (Ret (body, None), w2) =>
          match Unmarshal EventsT body (zero_value EventsT) with
          | (_, Some e) => (Ret ([], Some e), w2)
          | (_, None) => (Ret ([], None), w2)
          end
      | (Panic why, w2) => (Panic why, w2)
      end
  | (Panic why, w1) => (Panic why, w1)
  end.
Proof.
  intros Hd. unfold GetEvents. monad_unfold. rewrite (deref_eq _ _ _ Hd).
  destruct (getRequest _ _ _ w) as [[[[r|] [e|]]|why] w1]; try reflexivity.
  destruct (ReadAll (Body r) w1) as [[[body [e'|]]|why] w2]; try reflexivity.
  by destruct (Unmarshal EventsT body _) as [ev [e''|]].
Qed.

(** C8.  Every request that [GetEvents] puts on the wire (one per attempt, at
    least one and at most three) is a GET of the event endpoint whose query
    has [start_time] equal to [st.Unix()], [end_time] equal to
    [et.Unix() - 60*60*24], the subtraction being the one of [int64], together
    with the camera's uuid (and [human=True]).  The amount subtracted is
    86400, and the 64-bit subtraction is the exact difference unless it would
    fall below the smallest [int64]. *)
Theorem GetEvents_query c o st et w this :
  heap w !! Cameras_Dropcam c = Some this ->
  (exists k req,
     (1 <= k <= 3)%nat /\
     wire (snd (GetEvents c o st et w)) = (wire w ++ replicate k req)%list /\
     Method req = "GET" /\
     Url req =
       EventPath this +:+ "?" +:+
       "end_time=" +:+ Sprintf_d (sub64 (Unix et) 86400) +:+
       "&human=True&start_time=" +:+ Sprintf_d (Unix st) +:+
       "&uuid=" +:+ QueryEscape (Uuid o)) /\
  (min_int64 + 86400 <= Unix et -> sub64 (Unix et) 86400 = Unix et - 86400).
Proof.
  intros Hd. split.
  - rewrite (GetEvents_eq _ _ _ _ _ _ Hd).
    destruct (getRequest _ _ _ w) as [res w1] eqn:Hg.
    apply (getRequest_spec _ _ _ _ _ _ _ Hd) in Hg as [_ Hg].
    set (req := get_request _ _ _) in Hg.
    assert (Hreq : Method req = "GET" /\
              Url req =
                EventPath this +:+ "?" +:+
                "end_time=" +:+ Sprintf_d (sub64 (Unix et) 86400) +:+
                "&human=True&start_time=" +:+ Sprintf_d (Unix st) +:+
                "&uuid=" +:+ QueryEscape (Uuid o)).
    { split; [done|]. unfold req, get_request. cbn [Url Retry InitialInterval Get].
      change (60 * 60 * 24) with 86400.
      by rewrite Encode_event_query, !QueryEscape_Sprintf_d. }
    destruct res as [[[r|] [e|]]|why]; try done.
    + destruct Hg as ((k & Hk & Hw) & _).
      destruct (ReadAll (Body r) w1) as [res2 w2] eqn:Hr.
      apply ReadAll_frame in Hr as [_ Hw2].
      exists k, req. split; [lia|]. split; [|done].
      destruct res2 as [[body [e'|]]|why]; simpl; try congruence.
      destruct (Unmarshal EventsT body _) as [ev [e''|]]; simpl; congruence.
    + destruct Hg as ((k & Hk & Hw) & _). exists k, req. split; [lia|]. by split.
  - intros Hlo. apply sub64_exact. pose proof (wrap64_range (seconds et)).
    unfold Unix in *. unfold min_int64, max_int64 in *. lia.
Qed.

(** * Scenarios *)

(** The property-set scenario of the specification: its JSON text is the
    document that is posted. *)
Example posted_document :
  parse (q "{'camera_uuid':'u1','name':'streaming.enabled','value':'true'}")
  = Some (Marshal_CamProp
            {| CamProp_UUID := "u1"; CamProp_Name := "streaming.enabled";
               CamProp_Value := "true" |}).
Proof. reflexivity. Qed.

Example envelope_200 : envelope_status (bytes_of_string (q "{'status':200}")) = Some 200.
Proof. reflexivity. Qed.

Example envelope_403 : envelope_status (bytes_of_string (q "{'status':403}")) = Some 403.
Proof. reflexivity. Qed.

Example envelope_empty : envelope_status [] = None.
Proof. reflexivity. Qed.

(** ** C1 *)

(** C1 fails as stated: a response with HTTP status 404 whose body says
    [{"status":200}] is a non-200 transport status with a 200 body status, and
    [postRequest] returns it as a success. *)
Lemma postRequest_accepts_transport_404 :
  exists r w',
    postRequest 0 properties_url "u1" streaming_on world_404_200
    = (Ret (Some r, None), w') /\
    StatusCode r = 404 /\ StatusCode r <> 200.
Proof. eexists _, _. split; [vm_compute; reflexivity | split; [reflexivity | discriminate]]. Qed.

(** The statement at the response with HTTP status 404 and body status 200. *)
Lemma postRequest_success_iff_body_status_witness :
  ((exists w',
      postRequest 0 properties_url "u1" streaming_on world_404_200
      = (Ret (Some {| Status := "404"; StatusCode := 404; Header := ∅; Body := 0 |},
              None), w')) <->
   envelope_status (bytes_of_string (q "{'status':200}")) = Some 200) /\
  (envelope_status (bytes_of_string (q "{'status':200}")) <> Some 200 ->
   exists e w',
     postRequest 0 properties_url "u1" streaming_on world_404_200
     = (Ret (None, Some e), w')).
Proof.
  eapply (postRequest_success_iff_body_status 0 properties_url "u1" streaming_on
            world_404_200 (session "abc123")
            {| Status := "404"; StatusCode := 404; Header := ∅; Body := 0 |} _
            {| unread := bytes_of_string (q "{'status':200}"); fault := None |});
    [reflexivity | vm_compute; reflexivity | reflexivity].
Defined.

(** The whole matrix at once: against a server that answers with HTTP status
    [code] and body [body], whatever [code] is, [postRequest] returns the
    response exactly when the body's status is 200. *)
Lemma postRequest_matrix n code header body cookie :
  (exists r w',
     postRequest 0 properties_url "u1" streaming_on
       (world n (always (reply code header body)) cookie)
     = (Ret (Some r, None), w') /\ StatusCode r = code) <->
  envelope_status (bytes_of_string body) = Some 200.
Proof.
  set (w := world n (always (reply code header body)) cookie).
  set (r := {| Status := Sprintf_d code; StatusCode := code; Header := header; Body := 0 |}).
  assert (HS : exists w1,
             Send (post_request cookie properties_url "u1" streaming_on) w
             = (Ret (Some r, None), w1) /\
             streams w1 !! 0%nat
             = Some {| unread := bytes_of_string body; fault := None |}).
  { rewrite Send_eq, attempts_eq, attempt_eq. eexists. split; reflexivity. }
  destruct HS as (w1 & HS & Hs).
  rewrite (postRequest_answered 0 properties_url "u1" streaming_on w (session cookie)
             r None w1 _ eq_refl HS Hs).
  cbn [unread]. destruct (envelope_status (bytes_of_string body)) as [rc|].
  - destruct (Z.eqb_spec rc 200) as [->|Hne].
    + split; [done|]. intros _. by eexists _, _.
    + split; [by intros (? & ? & [=] & _) | by intros [=]].
  - split; [by intros (? & ? & [=] & _) | done].
Qed.

(** ** C2 *)

(** With an empty cookie, [Cameras] is [login] and nothing else: it returns no
    [Cameras] value and the error of [login], nil when the login went well. *)
Lemma Cameras_with_empty_cookie d w this :
  heap w !! d = Some this ->
  Cookie this = EmptyString ->
  Dropcam_Cameras d w =
  match login d w with
  | (Ret err, w') => (Ret (None, err), w')
  | (Panic why, w') => (Panic why, w')
  end.
Proof.
  intros Hd Hc. unfold Dropcam_Cameras. monad_unfold.
  rewrite (deref_eq _ _ _ Hd), Hc. simpl.
  by destruct (login d w) as [[err|why] w'].
Qed.

(** C2 at a client whose first login got no cookie: [Init] fails and leaves
    the client with its endpoints, its credentials and an empty cookie.
    [Cameras] on that client logs in again, this time with success: the
    cookie [abc123] is stored, the two login requests are the only requests
    sent, and [Cameras] returns a nil [*Cameras] together with a nil error. *)
Theorem Cameras_after_login_returns_nil :
  exists w1 w2,
    Init 0 "alice" "secret" world_second_login
    = (Ret (None, Some "Login Returned No Cookie"), w1) /\
    Dropcam_Cameras 0 w1 = (Ret (None, None), w2) /\
    Cookie <$> heap w2 !! 0%nat = Some "abc123" /\
    Url <$> wire w2 =
      ["https://www.dropcam.com/api/v1/login.login?password=secret&username=alice";
       "https://www.dropcam.com/api/v1/login.login?password=secret&username=alice"].
Proof.
  eexists _, _. split; [vm_compute; reflexivity|].
  split; [vm_compute; reflexivity | split; reflexivity].
Qed.

(** The same on a client that was set up with an empty cookie. *)
Example Cameras_with_empty_cookie_logs_in :
  exists w',
    Dropcam_Cameras 0 world_login_ok = (Ret (None, None), w') /\
    Cookie <$> heap w' !! 0%nat = Some "abc123" /\
    Url <$> wire w' =
      ["https://www.dropcam.com/api/v1/login.login?password=secret&username=alice"].
Proof. eexists. split; [vm_compute; reflexivity | split; reflexivity]. Qed.

(** When the login fails, [Cameras] returns the error of [login]. *)
Example Cameras_login_fails :
  exists w',
    Dropcam_Cameras 0 world_login_no_cookie
    = (Ret (None, Some "Login Returned No Cookie"), w').
Proof. eexists. vm_compute. reflexivity. Qed.

(** The operations on a [Cameras] value have no such guard: with an empty
    cookie [SetProperties] sends its POST and nothing else. *)
Example SetProperties_does_not_log_in :
  Method <$> wire (snd (SetProperties cams front_door "streaming.enabled" "true"
                          world_login_ok))
  = ["POST"].
Proof. vm_compute. reflexivity. Qed.

(** ** C3 *)

(** The statement at a login endpoint that answers without a cookie. *)
Lemma login_without_cookie_witness :
  exists w',
    login 0 world_login_no_cookie = (Ret (Some "Login Returned No Cookie"), w') /\
    Cookie <$> heap w' !! 0%nat = Some EmptyString.
Proof.
  eapply (login_without_cookie 0 world_login_no_cookie (session EmptyString));
    [reflexivity | vm_compute; reflexivity | reflexivity].
Defined.

(** [Init] in the same situation: nil and the same error. *)
Example Init_no_cookie_issued :
  exists w',
    Init 0 "alice" "secret" world_login_no_cookie
    = (Ret (None, Some "Login Returned No Cookie"), w') /\
    Cookie <$> heap w' !! 0%nat = Some EmptyString.
Proof. eexists. split; [vm_compute; reflexivity | reflexivity]. Qed.

(** ** C4 *)

(** GET asks for three attempts, POST for none in particular. *)
Example retries_of_get_and_post cookie url v uuid data :
  Retries (get_request cookie url v) = Some 3 /\
  Retries (post_request cookie url uuid data) = None.
Proof. by split. Qed.

(** GET against a server that answers from the third round trip on: the
    answer, after exactly three attempts. *)
Example getRequest_fails_twice_then_succeeds :
  exists r w',
    getRequest 0 "https://www.dropcam.com/api/v1/cameras.get_visible" ∅
      (world 1 (third_time (reply 200 ∅ (q "{'status':200}"))) "abc123")
    = (Ret (Some r, None), w') /\
    length (wire w') = 3%nat.
Proof. eexists _, _. split; [vm_compute; reflexivity | reflexivity]. Qed.

(** GET against a server that never answers: an error, after exactly three
    attempts. *)
Example getRequest_always_fails :
  exists w',
    getRequest 0 "https://www.dropcam.com/api/v1/cameras.get_visible" ∅
      (world 1 never "abc123")
    = (Ret (None, Some "connection refused"), w') /\
    length (wire w') = 3%nat.
Proof. eexists. split; [vm_compute; reflexivity | reflexivity]. Qed.

(** C4 on the POST path, against a server that never answers: however many
    attempts [n] the library makes of its own, [postRequest] makes those (at
    least one) and then panics on the missing response; it returns no
    error. *)
Theorem postRequest_dead_transport_panics (n : nat) :
  exists w',
    postRequest 0 properties_url "u1" streaming_on (world n never "abc123")
    = (Panic nil_dereference, w') /\
    length (wire w') = Nat.max 1 n.
Proof.
  destruct (postRequest_without_response 0 properties_url "u1" streaming_on
              (world n never "abc123") (session "abc123") eq_refl) as (w' & Hp & Hw).
  { intros i. by eexists. }
  exists w'. split; [exact Hp|]. rewrite Hw. simpl. by rewrite length_replicate.
Qed.

(** With a library that makes a single attempt of its own, a server that
    answers from the third round trip on is never reached by a POST. *)
Example postRequest_fails_twice_then_succeeds :
  exists w',
    postRequest 0 properties_url "u1" streaming_on
      (world 1 (third_time (reply 200 ∅ (q "{'status':200}"))) "abc123")
    = (Panic nil_dereference, w') /\
    length (wire w') = 1%nat.
Proof. eexists. split; [vm_compute; reflexivity | reflexivity]. Qed.

(** ** C5 *)

(** C5 at the scenario of the specification, the server answering
    [{"status":200}]: the property is posted as the JSON document of the
    scenario, and [SetProperties] returns [false] and an error, because the
    body it wants to decode was already read by [postRequest]. *)
Theorem SetProperties_fails_on_status_200 :
  exists w',
    SetProperties cams front_door "streaming.enabled" "true" world_200_200
    = (Ret (false, Some "Failed to get Reply Response Code"), w') /\
    JsonBody <$> wire w' = [Some streaming_on] /\
    Url <$> wire w' = [properties_url] /\
    unread <$> streams w' = [[]].
Proof. eexists. split; [vm_compute; reflexivity | by repeat split]. Qed.

(** With [{"status":403}] the result is [false] and an error; the error is the
    same for any other status. *)
Example SetProperties_status_403 :
  exists w1 w2,
    SetProperties cams front_door "streaming.enabled" "true" world_200_403
    = (Ret (false, Some "Failed postRequest "), w1) /\
    SetProperties cams front_door "streaming.enabled" "true" world_200_500
    = (Ret (false, Some "Failed postRequest "), w2).
Proof. eexists _, _. split; vm_compute; reflexivity. Qed.

(** ** C6 *)

(** The statement at an image response with status 200 and length zero, and
    at one with status 200 and four bytes. *)
Lemma getImage_needs_200_and_length_witness :
  (exists e w',
     getImage cams front_door 720 midnight world_image_empty = (Ret ([], Some e), w') /\
     (e = "Malformed Request or image has 0 size" \/
      e = "Failed to get Reply Response Code")) /\
  (forall img w',
     getImage cams front_door 720 midnight world_image = (Ret (img, None), w') ->
     200 = 200 /\ "4" <> "0").
Proof.
  split.
  - assert (Hg : getRequest 0 (CamerasGetImagePath (session "abc123"))
                   (image_query front_door 720) world_image_empty
                 = (Ret (Some {| Status := "200"; StatusCode := 200;
                                 Header := {[ "Content-Length" := ["0"] ]}; Body := 0 |},
                         None),
                    snd (getRequest 0 (CamerasGetImagePath (session "abc123"))
                           (image_query front_door 720) world_image_empty)))
      by (vm_compute; reflexivity).
    destruct (getImage_needs_200_and_length cams front_door 720 midnight
                world_image_empty (session "abc123") _ _ eq_refl Hg) as [H _].
    apply H; reflexivity.
  - assert (Hg : getRequest 0 (CamerasGetImagePath (session "abc123"))
                   (image_query front_door 720) world_image
                 = (Ret (Some {| Status := "200"; StatusCode := 200;
                                 Header := {[ "Content-Length" := ["4"] ]}; Body := 0 |},
                         None),
                    snd (getRequest 0 (CamerasGetImagePath (session "abc123"))
                           (image_query front_door 720) world_image)))
      by (vm_compute; reflexivity).
    destruct (getImage_needs_200_and_length cams front_door 720 midnight
                world_image (session "abc123") _ _ eq_refl Hg) as [_ H].
    exact H.
Defined.

Example getImage_returns_the_body :
  exists w',
    getImage cams front_door 720 midnight world_image
    = (Ret (bytes_of_string "JPEG", None), w').
Proof. eexists. vm_compute. reflexivity. Qed.

(** ** C7 *)

(** Once the camera-list request has a response, what [Cameras] returns is
    decided by the bytes that were read; the error the reading ended with,
    [fault s], has no part in it. *)
Lemma Cameras_ignores_read_error d w this r w1 s :
  heap w !! d = Some this ->
  Cookie this <> EmptyString ->
  getRequest d (CamerasGetVisible this) (Values_Set "group_cameras" "True" ∅) w
  = (Ret (Some r, None), w1) ->
  streams w1 !! Body r = Some s ->
  fst (Dropcam_Cameras d w) =
  match Unmarshal CamT (unread s) (zero_value CamT) with
  | (_, Some e) => Ret (None, Some e)
  | (cam, None) =>
      Ret (Some {| Cameras_Dropcam := d;
                   Cameras_Cam := collect_owned (Cam_Items (Cam_of cam)) |}, None)
  end.
Proof.
  intros Hd Hc Hg Hs. unfold Dropcam_Cameras. monad_unfold.
  rewrite (deref_eq _ _ _ Hd).
  destruct (String.eqb_spec (Cookie this) EmptyString) as [|_]; [done|].
  rewrite Hg, (ReadAll_eq _ _ _ Hs).
  by destruct (Unmarshal CamT (unread s) _) as [cam [e|]].
Qed.

(** C7 at that response: [ioutil.ReadAll] reports the error, [Cameras] does
    not look at it, and the caller gets a camera list and a nil error. *)
Theorem Cameras_swallows_read_error :
  exists w',
    ReadAll 0 (snd (getRequest 0 (CamerasGetVisible (session "abc123"))
                      (Values_Set "group_cameras" "True" ∅) world_cameras_truncated))
    = (Ret (bytes_of_string
              (q "{'items':[{'owned':[{'uuid':'u1','title':'Front Door'}]}],'status':200}"),
            Some "unexpected EOF"), w') /\
    fst (Dropcam_Cameras 0 world_cameras_truncated) = Ret (Some cams, None).
Proof. eexists. split; vm_compute; reflexivity. Qed.

(** ** C8 *)

(** The statement for the front-door camera, both times at midnight of
    2014-10-19: the URL that goes on the wire. *)
Lemma GetEvents_query_witness :
  (exists k req,
     (1 <= k <= 3)%nat /\
     wire (snd (GetEvents cams front_door midnight midnight world_200_200))
     = (wire world_200_200 ++ replicate k req)%list /\
     Method req = "GET" /\
     Url req =
       "https://nexusapi.dropcam.com/get_cuepoint?end_time=1413590400&human=True&start_time=1413676800&uuid=u1") /\
  (min_int64 + 86400 <= Unix midnight -> sub64 (Unix midnight) 86400 = Unix midnight - 86400).
Proof.
  exact (GetEvents_query cams front_door midnight midnight world_200_200 (session "abc123") eq_refl).
Defined.

(** At the far end of [int64] the subtraction wraps around. *)
Example end_time_wraps :
  sub64 (Unix {| seconds := min_int64 |}) 86400 = max_int64 - 86399.
Proof. reflexivity. Qed.

(** ** C9 *)

(** The statement at a response that holds three events. *)
Lemma GetEvents_returns_nil_witness :
  exists evs w',
    GetEvents cams front_door midnight midnight world_events = (Ret (evs, None), w') /\
    evs = [].
Proof.
  exists [], (snd (GetEvents cams front_door midnight midnight world_events)).
  assert (H : GetEvents cams front_door midnight midnight world_events
              = (Ret ([], None), snd (GetEvents cams front_door midnight midnight world_events)))
    by (vm_compute; reflexivity).
  split; [exact H | exact (GetEvents_returns_nil _ _ _ _ _ _ _ H)].
Defined.

(** ** C10 *)


(** An image of length zero: the error of [getImage] and no file. *)
Example SaveImage_writes_nothing_on_error :
  exists w',
    SaveImage cams front_door "./img-0" 720 midnight world_image_empty
    = (Ret (Some "Malformed Request or image has 0 size"), w') /\
    files w' = ∅.
Proof. eexists. split; [vm_compute; reflexivity | reflexivity]. Qed.

(** The image is in the file afterwards. *)
Example SaveImage_writes_the_file :
  exists w',
    SaveImage cams front_door "./img-0" 720 midnight world_image = (Ret None, w') /\
    files w' !! "./img-0" = Some (bytes_of_string "JPEG").
Proof. eexists. split; [vm_compute; reflexivity | reflexivity]. Qed.

(** * Further properties of the package *)

(** ** [login] and [Init] *)

Lemma with_cookie_same this : with_cookie this (Cookie this) = this.
Proof. by destruct this. Qed.

Lemma heap_after_store d v w this :
  heap w !! d = Some this ->
  heap (with_heap (fun h => <[d := v]> h) w) !! d = Some v.
Proof. intros Hd. simpl. apply list_lookup_insert_eq. by eapply lookup_lt_Some. Qed.

(** [login] in one equation, by what its request came to. *)
Lemma login_eq d w this :
  heap w !! d = Some this ->
  login d w =
  match getRequest d (LoginPath this) (login_query this) w with
  | (Ret (_, Some e), w1) => (Ret (Some ("Login Request Failed: " +:+ e)), w1)
  | (Ret (None, None), w1) => (Panic nil_dereference, w1)
  | (Ret (Some r, None), w1) =>
      (Ret (if String.eqb (Header_Get (Header r) "Set-Cookie") EmptyString
            then Some "Login Returned No Cookie" else None),
       with_heap
         (fun h => <[d := with_cookie this (Header_Get (Header r) "Set-Cookie")]> h) w1)
  | (Panic why, w1) => (Panic why, w1)
  end.
Proof.
  intros Hd. unfold login. monad_unfold. rewrite (deref_eq _ _ _ Hd).
  change (Values_Add "password" (Password (Creds this))
            (Values_Set "username" (Username (Creds this)) ∅)) with (login_query this).
  destruct (getRequest d (LoginPath this) (login_query this) w) as [res w1] eqn:Hg.
  pose proof (getRequest_spec _ _ _ _ _ _ _ Hd Hg) as [(_ & _ & Hh & _) _].
  assert (Hd1 : heap w1 !! d = Some this) by (by rewrite Hh).
  destruct res as [[[r|] [e|]]|why]; try reflexivity.
  rewrite (deref_eq _ _ _ Hd1). unfold store. rewrite Hd1.
  by destruct (String.eqb _ EmptyString).
Qed.

(** X1.  When the login request gets a response with a value under
    [Set-Cookie], [login] returns nil and the client holds exactly that value
    as its cookie; its endpoints and credentials, and every other client, are
    as before. *)
Theorem login_stores_cookie d w this r w1 :
  heap w !! d = Some this ->
  getRequest d (LoginPath this) (login_query this) w = (Ret (Some r, None), w1) ->
  Header_Get (Header r) "Set-Cookie" <> EmptyString ->
  exists w',
    login d w = (Ret None, w') /\
    heap w' = <[d := with_cookie this (Header_Get (Header r) "Set-Cookie")]> (heap w).
Proof.
  intros Hd Hg Hc.
  pose proof (getRequest_spec _ _ _ _ _ _ _ Hd Hg) as [(_ & _ & Hh & _) _].
  rewrite (login_eq _ _ _ Hd), Hg.
  destruct (String.eqb_spec (Header_Get (Header r) "Set-Cookie") EmptyString) as [|_];
    [done|].
  eexists. split; [reflexivity|]. simpl. by rewrite Hh.
Qed.

(** X2.  When the login request gets no response, [login] returns the error
    of the transport behind the prefix "Login Request Failed: ", and no client
    has changed: the cookie is what it was. *)
Theorem login_transport_failure d w this e w1 :
  heap w !! d = Some this ->
  getRequest d (LoginPath this) (login_query this) w = (Ret (None, Some e), w1) ->
  login d w = (Ret (Some ("Login Request Failed: " +:+ e)), w1) /\
  heap w1 = heap w.
Proof.
  intros Hd Hg.
  pose proof (getRequest_spec _ _ _ _ _ _ _ Hd Hg) as [(_ & _ & Hh & _) _].
  by rewrite (login_eq _ _ _ Hd), Hg.
Qed.

(** Whatever [login] comes to, the heap afterwards is the heap before with at
    most the cookie of the client replaced. *)
Lemma login_heap d w this res w' :
  heap w !! d = Some this ->
  login d w = (res, w') ->
  exists cookie,
    heap w' = <[d := with_cookie this cookie]> (heap w) /\
    (res = Ret None -> cookie <> EmptyString) /\
    (forall e, res = Ret (Some e) -> cookie = Cookie this \/ cookie = EmptyString).
Proof.
  intros Hd. rewrite (login_eq _ _ _ Hd).
  destruct (getRequest d (LoginPath this) (login_query this) w) as [res1 w1] eqn:Hg.
  pose proof (getRequest_spec _ _ _ _ _ _ _ Hd Hg) as [(_ & _ & Hh & _) Hres].
  assert (Hsame : heap w1 = <[d := with_cookie this (Cookie this)]> (heap w)).
  { rewrite with_cookie_same, Hh. symmetry. by apply list_insert_id. }
  destruct res1 as [[[r|] [e|]]|why]; try done.
  - destruct (String.eqb_spec (Header_Get (Header r) "Set-Cookie") EmptyString) as [Hc|Hc];
      intros [= <- <-]; exists (Header_Get (Header r) "Set-Cookie"); simpl; rewrite Hh.
    + split; [done|]. split; [done|]. intros e _. by right.
    + split; [done|]. split; [done|]. by intros e [=].
  - intros [= <- <-]. exists (Cookie this). split; [done|].
    split; [done|]. intros e' _. by left.
Qed.

(** X3.  [login] never touches the endpoint table or the credentials: after
    any run that returns, the heap is the one before with at most the cookie
    of the client replaced, and a nil result means that the cookie it leaves
    is not empty. *)
Theorem login_changes_only_the_cookie d w this res w' :
  heap w !! d = Some this ->
  login d w = (Ret res, w') ->
  exists cookie,
    heap w' = <[d := with_cookie this cookie]> (heap w) /\
    (res = None -> cookie <> EmptyString).
Proof.
  intros Hd Hl. destruct (login_heap _ _ _ _ _ Hd Hl) as (cookie & Hh & Hok & _).
  exists cookie. split; [done|]. intros ->. by apply Hok.
Qed.

(** [Init] in one equation: the fields are assigned, then [login] runs. *)
Lemma Init_eq d u p w old :
  heap w !! d = Some old ->
  Init d u p w =
  match login d (with_heap (fun h => <[d := initialized u p]> h) w) with
  | (Ret (Some e), w') => (Ret (None, Some e), w')
  | (Ret None, w') => (Ret (Some d, None), w')
  | (Panic why, w') => (Panic why, w')
  end.
Proof.
  intros Hd. unfold Init, store. monad_unfold. rewrite Hd.
  by destruct (login d _) as [[[e|]|why] w'].
Qed.

Lemma Init_heap d u p w old res err w' :
  heap w !! d = Some old ->
  Init d u p w = (Ret (res, err), w') ->
  exists cookie,
    heap w' = <[d := with_cookie (initialized u p) cookie]> (heap w) /\
    ((res = Some d /\ err = None /\ cookie <> EmptyString) \/
     (res = None /\ is_Some err /\ cookie = EmptyString)).
Proof.
  intros Hd. rewrite (Init_eq _ _ _ _ _ Hd).
  pose proof (heap_after_store d (initialized u p) w old Hd) as Hd0.
  destruct (login d _) as [res0 w0] eqn:Hl.
  destruct (login_heap _ _ _ _ _ Hd0 Hl) as (cookie & Hh & Hok & Hbad).
  assert (Hh' : heap w0 = <[d := with_cookie (initialized u p) cookie]> (heap w)).
  { rewrite Hh. simpl. apply list_insert_insert_eq. }
  destruct res0 as [[e|]|why]; [| |done]; intros [= <- <- <-]; exists cookie;
    (split; [exact Hh'|]).
  - right. split; [done|]. split; [by eexists|].
    by destruct (Hbad e eq_refl) as [->| ->].
  - left. split; [done|]. split; [done|]. by apply Hok.
Qed.

(** X4.  [Init] throws away what the client held, an earlier cookie included:
    after any run that returns, the client is the endpoint table and the
    credentials handed in, with some cookie.  [Init] returns its receiver and
    a nil error exactly when that cookie is not empty; otherwise it returns
    nil and an error, and the cookie is empty. *)
Theorem Init_resets_the_client d u p w old res err w' :
  heap w !! d = Some old ->
  Init d u p w = (Ret (res, err), w') ->
  exists cookie,
    heap w' = <[d := with_cookie (initialized u p) cookie]> (heap w) /\
    ((res = Some d /\ err = None /\ cookie <> EmptyString) \/
     (res = None /\ is_Some err /\ cookie = EmptyString)).
Proof. apply Init_heap. Qed.

(** ** [Cameras] with a session *)

(** The nested loops of [Cameras] put the cameras of all groups in one list,
    group after group, each group in its own order. *)
Lemma collect_owned_from items cams0 :
  fold_left
    (fun cams it => fold_left (fun cams owned => (cams ++ [owned])%list) (Items_Owned it) cams)
    items cams0
  = (cams0 ++ flat_map Items_Owned items)%list.
Proof.
  revert cams0. induction items as [|it items IH]; intros cams0; simpl.
  - by rewrite app_nil_r.
  - rewrite IH, app_assoc. f_equal.
    generalize (Items_Owned it). intros l. revert cams0.
    induction l as [|x l IHl]; intros cams0; simpl; [by rewrite app_nil_r|].
    by rewrite IHl, <- app_assoc.
Qed.

(** X5.  The list that [Cameras] builds is the concatenation of the [owned]
    lists of all items, in the order of the response: no camera is dropped,
    duplicated or reordered, and its length is the sum of the groups'. *)
Theorem collect_owned_is_concatenation items :
  collect_owned items = flat_map Items_Owned items /\
  length (collect_owned items) = sum_list (map (fun it => length (Items_Owned it)) items).
Proof.
  assert (H : collect_owned items = flat_map Items_Owned items)
    by apply (collect_owned_from items []).
  split; [exact H|]. rewrite H. clear H.
  induction items as [|it items IH]; [done|].
  cbn [flat_map map]. rewrite length_app, IH. reflexivity.
Qed.

(** [Cameras] on a client that has a cookie, in one equation. *)
Lemma Cameras_eq d w this :
  heap w !! d = Some this ->
  Cookie this <> EmptyString ->
  Dropcam_Cameras d w =
  match getRequest d (CamerasGetVisible this) cameras_query w with
  | (Ret (_, Some _), w1) => (Ret (None, Some "Get Visible Cameras Request Failed"), w1)
  | (Ret (None, None), w1) => (Panic nil_dereference, w1)
  | (Ret (Some r, None), w1) =>
      match ReadAll (Body r) w1 with
      | (Ret (body, _), w2) =>
          match Unmarshal CamT body (zero_value CamT) with
          | (_, Some e) => (Ret (None, Some e), w2)
          | (cam, None) =>
              (Ret (Some {| Cameras_Dropcam := d;
                            Cameras_Cam := collect_owned (Cam_Items (Cam_of cam)) |},
                    None), w2)
          end
      | (Panic why, w2) => (Panic why, w2)
      end
  | (Panic why, w1) => (Panic why, w1)
  end.
Proof.
  intros Hd Hc. unfold Dropcam_Cameras. monad_unfold. rewrite (deref_eq _ _ _ Hd).
  destruct (String.eqb_spec (Cookie this) EmptyString) as [|_]; [done|].
  fold cameras_query.
  destruct (getRequest _ _ _ w) as [[[[r|] [e|]]|why] w1]; try reflexivity.
  destruct (ReadAll (Body r) w1) as [[[body e']|why] w2]; [|reflexivity].
  by destruct (Unmarshal CamT body _) as [cam [e''|]].
Qed.

(** What [Cameras] comes to on a client that has a cookie. *)
Lemma Cameras_with_session d w this :
  heap w !! d = Some this ->
  Cookie this <> EmptyString ->
  exists c err w',
    Dropcam_Cameras d w = (Ret (c, err), w') /\
    frame w w' /\
    sent_between 1 3 (get_request (Cookie this) (CamerasGetVisible this) cameras_query) w w' /\
    ((exists cams, c = Some cams /\ err = None /\ Cameras_Dropcam cams = d) \/
     (c = None /\ is_Some err)).
Proof.
  intros Hd Hc. rewrite (Cameras_eq _ _ _ Hd Hc).
  destruct (getRequest _ _ _ w) as [res w1] eqn:Hg.
  pose proof (getRequest_spec _ _ _ _ _ _ _ Hd Hg) as [Hf Hres].
  destruct res as [[[r|] [e|]]|why]; try done.
  - destruct Hres as (Hsent & _ & _).
    destruct (getRequest_body _ _ _ _ _ _ _ Hd Hg) as [s Hs].
    rewrite (ReadAll_eq _ _ _ Hs).
    assert (Hf2 : frame w (read_out (Body r) s w1)).
    { eapply frame_trans; [exact Hf | apply frame_with_streams]. }
    destruct (Unmarshal CamT (unread s) _) as [cam [e|]]; eexists _, _, _;
      (split; [reflexivity|]); (split; [exact Hf2|]); (split; [exact Hsent|]).
    + right. by split; [|eexists].
    + left. by eexists.
  - destruct Hres as ((k & Hk & Hw) & _).
    eexists _, _, _. split; [reflexivity|]. split; [exact Hf|].
    split; [exists k; split; [lia | exact Hw]|].
    right. by split; [|eexists].
Qed.

(** X6.  On a client that has a cookie, [Cameras] does not log in: it returns
    (it does not panic), it leaves every client and every file as they were,
    all it sends is the camera-list GET with the cookie, one to three times,
    and its result is either a [Cameras] value for this client with a nil
    error, or nil with an error; never nil with a nil error. *)
Theorem Cameras_with_cookie d w this :
  heap w !! d = Some this ->
  Cookie this <> EmptyString ->
  exists c err w',
    Dropcam_Cameras d w = (Ret (c, err), w') /\
    heap w' = heap w /\ files w' = files w /\
    (exists k req,
       (1 <= k <= 3)%nat /\ wire w' = (wire w ++ replicate k req)%list /\
       Method req = "GET" /\
       Url req = CamerasGetVisible this +:+ "?group_cameras=True" /\
       ReqHeader req = {[ "cookie" := Cookie this ]}) /\
    ((exists cams, c = Some cams /\ err = None /\ Cameras_Dropcam cams = d) \/
     (c = None /\ is_Some err)).
Proof.
  intros Hd Hc.
  destruct (Cameras_with_session _ _ _ Hd Hc)
    as (c & err & w' & Hrun & (_ & _ & Hh & Hfi & _) & (k & Hk & Hw) & Hres).
  exists c, err, w'. split; [exact Hrun|]. split; [exact Hh|]. split; [exact Hfi|].
  split; [|exact Hres].
  exists k, (get_request (Cookie this) (CamerasGetVisible this) cameras_query).
  split; [exact Hk|]. split; [exact Hw|]. split; [done|]. split; [done|].
  unfold get_request.
  destruct (String.eqb_spec (Cookie this) EmptyString) as [|_]; [done|].
  cbn. apply insert_empty.
Qed.

(** X7.  [Init] and [Cameras] compose: on the client that a successful [Init]
    returns, [Cameras] sends the camera-list request (it does not log in
    again, and the cookie stays), and what it returns is a [Cameras] value
    with a nil error or nil with an error, so that a caller who checks the
    error may use the value. *)
Theorem Cameras_after_Init d u p w old w1 :
  heap w !! d = Some old ->
  Init d u p w = (Ret (Some d, None), w1) ->
  exists c err w2,
    Dropcam_Cameras d w1 = (Ret (c, err), w2) /\
    heap w2 = heap w1 /\
    (exists k req,
       (1 <= k <= 3)%nat /\ wire w2 = (wire w1 ++ replicate k req)%list /\
       Url req = "https://www.dropcam.com/api/v1/cameras.get_visible?group_cameras=True") /\
    ((exists cams, c = Some cams /\ err = None /\ Cameras_Dropcam cams = d) \/
     (c = None /\ is_Some err)).
Proof.
  intros Hd Hi.
  destruct (Init_heap _ _ _ _ _ _ _ _ Hd Hi) as (cookie & Hh & [(_ & _ & Hc)|(? & _)]);
    [|done].
  assert (Hd1 : heap w1 !! d = Some (with_cookie (initialized u p) cookie)).
  { rewrite Hh. apply list_lookup_insert_eq. by eapply lookup_lt_Some. }
  destruct (Cameras_with_session _ _ _ Hd1 Hc)
    as (c & err & w2 & Hrun & (_ & _ & Hh2 & _) & (k & Hk & Hw) & Hres).
  exists c, err, w2. split; [exact Hrun|]. split; [exact Hh2|]. split; [|exact Hres].
  by exists k, (get_request cookie (CamerasGetVisible (initialized u p)) cameras_query).
Qed.

(** X8.  A nil error from [Cameras] means the client has a session afterwards,
    whether [Cameras] logged in or listed the cameras. *)
Theorem Cameras_nil_error_means_session d w this c w' :
  heap w !! d = Some this ->
  Dropcam_Cameras d w = (Ret (c, None), w') ->
  exists this', heap w' !! d = Some this' /\ Cookie this' <> EmptyString.
Proof.
  intros Hd. destruct (String.eqb_spec (Cookie this) EmptyString) as [Hc|Hc].
  - rewrite (Cameras_with_empty_cookie _ _ _ Hd Hc).
    destruct (login d w) as [res w0] eqn:Hl.
    destruct (login_heap _ _ _ _ _ Hd Hl) as (cookie & Hh & Hok & _).
    destruct res as [[e|]|why]; [done| |done]. intros [= _ <-].
    exists (with_cookie this cookie). split; [|by apply Hok].
    rewrite Hh. apply list_lookup_insert_eq. by eapply lookup_lt_Some.
  - destruct (Cameras_with_session _ _ _ Hd Hc)
      as (c0 & err & w2 & -> & (_ & _ & Hh2 & _) & _).
    intros [= _ _ <-]. exists this. by rewrite Hh2.
Qed.

(** ** What the operations leave alone *)

Lemma Send_frame req w res w' : Send req w = (res, w') -> frame w w'.
Proof. rewrite Send_eq. intros H. by apply attempts_spec in H as [Hf _]. Qed.

Lemma getBodyRespCode_frame rb w res w' :
  getBodyRespCode rb w = (res, w') -> frame w w'.
Proof.
  unfold getBodyRespCode. monad_unfold.
  destruct (ReadAll rb w) as [res0 w0] eqn:Hr. apply ReadAll_frame in Hr as [Hf _].
  destruct res0 as [[body e]|why]; [|by intros [= <- <-]].
  destruct (Unmarshal _ _ _) as [v [e'|]]; by intros [= <- <-].
Qed.

Lemma postRequest_frame d url uuid data w res w' :
  postRequest d url uuid data w = (res, w') -> frame w w'.
Proof.
  destruct (heap w !! d) as [this|] eqn:Hd.
  - rewrite (postRequest_eq _ _ _ _ _ _ Hd).
    destruct (Send _ w) as [res1 w1] eqn:HS. apply Send_frame in HS.
    destruct res1 as [[[r|] e]|why]; try (by intros [= <- <-]).
    destruct (getBodyRespCode (Body r) w1) as [res2 w2] eqn:Hg.
    apply getBodyRespCode_frame in Hg.
    destruct res2 as [[rc [e'|]]|why]; [| destruct (negb (rc =? 200)) |];
      intros [= <- <-]; by eapply frame_trans.
  - unfold postRequest, deref. monad_unfold. rewrite Hd. intros [= <- <-].
    apply frame_refl.
Qed.

Lemma SetProperties_frame c o name value w res w' :
  SetProperties c o name value w = (res, w') -> frame w w'.
Proof.
  destruct (heap w !! Cameras_Dropcam c) as [this|] eqn:Hd.
  - rewrite (SetProperties_eq _ _ _ _ _ _ Hd).
    destruct (postRequest _ _ _ _ w) as [res1 w1] eqn:Hp. apply postRequest_frame in Hp.
    destruct res1 as [[[r|] [e|]]|why]; try (by intros [= <- <-]).
    destruct (getBodyRespCode (Body r) w1) as [res2 w2] eqn:Hg.
    apply getBodyRespCode_frame in Hg.
    destruct res2 as [[rc [e'|]]|why]; [| destruct (negb (rc =? 200)) |];
      intros [= <- <-]; by eapply frame_trans.
  - unfold SetProperties, deref. monad_unfold. rewrite Hd. intros [= <- <-].
    apply frame_refl.
Qed.

Lemma GetEvents_frame c o st et w res w' :
  GetEvents c o st et w = (res, w') -> frame w w'.
Proof.
  destruct (heap w !! Cameras_Dropcam c) as [this|] eqn:Hd.
  - rewrite (GetEvents_eq _ _ _ _ _ _ Hd).
    destruct (getRequest _ _ _ w) as [res1 w1] eqn:Hg.
    apply (getRequest_spec _ _ _ _ _ _ _ Hd) in Hg as [Hf _].
    destruct res1 as [[[r|] [e|]]|why]; try (by intros [= <- <-]).
    destruct (ReadAll (Body r) w1) as [res2 w2] eqn:Hr.
    apply ReadAll_frame in Hr as [Hf2 _].
    destruct res2 as [[body [e'|]]|why];
      [| destruct (Unmarshal EventsT body _) as [ev [e''|]] |];
      intros [= <- <-]; by eapply frame_trans.
  - unfold GetEvents, deref. monad_unfold. rewrite Hd. intros [= <- <-].
    apply frame_refl.
Qed.

Lemma SaveImage_heap c o path width st w res w' :
  SaveImage c o path width st w = (res, w') -> heap w' = heap w.
Proof.
  rewrite SaveImage_eq.
  destruct (getImage c o width st w) as [res1 w1] eqn:Hg.
  apply getImage_frame in Hg as (_ & _ & Hh & _).
  destruct res1 as [[img [e|]]|why]; try (by intros [= <- <-]).
  unfold WriteFile. destruct (disk w1 path) as [[e|n e]|]; by intros [= <- <-].
Qed.

(** X9.  The operations on a [Cameras] value never change a client: after
    [SetProperties], [GetEvents], [getImage] and [SaveImage], whatever they
    come to, every [Dropcam] is what it was, so a session once there is never
    lost; and the first three write no file. *)
Theorem operations_leave_the_clients_alone c o name value st et path width w :
  (heap (snd (SetProperties c o name value w)) = heap w /\
   files (snd (SetProperties c o name value w)) = files w) /\
  (heap (snd (GetEvents c o st et w)) = heap w /\
   files (snd (GetEvents c o st et w)) = files w) /\
  (heap (snd (getImage c o width st w)) = heap w /\
   files (snd (getImage c o width st w)) = files w) /\
  heap (snd (SaveImage c o path width st w)) = heap w.
Proof.
  repeat split.
  - destruct (SetProperties c o name value w) as [res w'] eqn:H.
    by apply SetProperties_frame in H as (_ & _ & ? & _).
  - destruct (SetProperties c o name value w) as [res w'] eqn:H.
    by apply SetProperties_frame in H as (_ & _ & _ & ? & _).
  - destruct (GetEvents c o st et w) as [res w'] eqn:H.
    by apply GetEvents_frame in H as (_ & _ & ? & _).
  - destruct (GetEvents c o st et w) as [res w'] eqn:H.
    by apply GetEvents_frame in H as (_ & _ & _ & ? & _).
  - destruct (getImage c o width st w) as [res w'] eqn:H.
    by apply getImage_frame in H as (_ & _ & ? & _).
  - destruct (getImage c o width st w) as [res w'] eqn:H.
    by apply getImage_frame in H as (_ & _ & _ & ? & _).
  - destruct (SaveImage c o path width st w) as [res w'] eqn:H.
    by apply SaveImage_heap in H.
Qed.

(** ** What goes on the wire *)

Lemma get_request_header cookie url v :
  ReqHeader (get_request cookie url v) =
  if String.eqb cookie EmptyString then ∅ else {[ "cookie" := cookie ]}.
Proof.
  unfold get_request. destruct (String.eqb cookie EmptyString); [done|].
  cbn. apply insert_empty.
Qed.

(** X10.  All that [getRequest] puts on the wire is one GET, between one and
    three times: its URL is the endpoint, a question mark and the encoded
    values; it has no JSON body; and it carries the cookie as its only header
    when the client has one, and no header at all when the cookie is empty. *)
Theorem getRequest_sends d url v w this :
  heap w !! d = Some this ->
  exists k req,
    (1 <= k <= 3)%nat /\
    wire (snd (getRequest d url v w)) = (wire w ++ replicate k req)%list /\
    Method req = "GET" /\
    Url req = url +:+ "?" +:+ Values_Encode v /\
    JsonBody req = None /\
    ReqHeader req =
      (if String.eqb (Cookie this) EmptyString then ∅ else {[ "cookie" := Cookie this ]}).
Proof.
  intros Hd. destruct (getRequest d url v w) as [res w'] eqn:Hg.
  apply (getRequest_spec _ _ _ _ _ _ _ Hd) in Hg as [_ Hres].
  assert (Hk : sent_between 1 3 (get_request (Cookie this) url v) w w').
  { destruct res as [[[r|] [e|]]|why]; try done.
    - by destruct Hres as [? _].
    - destruct Hres as [(k & Hk & Hw) _]. exists k. split; [lia | exact Hw]. }
  destruct Hk as (k & Hk & Hw). exists k, (get_request (Cookie this) url v).
  split; [exact Hk|]. split; [exact Hw|]. split; [done|]. split; [done|].
  split; [|apply get_request_header].
  unfold get_request. by destruct (negb _).
Qed.

(** X11.  All that [postRequest] puts on the wire is one POST of the JSON
    document to the URL, at least once and as often as the HTTP library makes
    attempts of its own.  It carries the two headers [Referer], the watch page
    of the camera, and [cookie], and it carries the latter also when the
    cookie is empty. *)
Theorem postRequest_sends d url uuid data w this :
  heap w !! d = Some this ->
  exists k req,
    (1 <= k <= Nat.max 1 (library_attempts w))%nat /\
    wire (snd (postRequest d url uuid data w)) = (wire w ++ replicate k req)%list /\
    Method req = "POST" /\ Url req = url /\ JsonBody req = Some data /\
    ReqHeader req =
      {[ "cookie" := Cookie this;
         "Referer" := "https://www.dropcam.com/watch/" +:+ uuid ]}.
Proof.
  intros Hd. rewrite (postRequest_eq _ _ _ _ _ _ Hd), Send_eq.
  change (Retries (post_request (Cookie this) url uuid data)) with (@None Z).
  destruct (attempts _ _ w) as [res w1] eqn:Ha.
  apply attempts_spec in Ha as [_ Hres].
  assert (Hk : sent_between 1 (Nat.max 1 (library_attempts w))
                 (post_request (Cookie this) url uuid data) w w1).
  { destruct res as [[[r|] [e|]]|why]; try done;
      destruct Hres as [(k & Hk & Hw) _]; exists k; (split; [lia | exact Hw]). }
  destruct Hk as (k & Hk & Hw). exists k, (post_request (Cookie this) url uuid data).
  split; [exact Hk|]. split; [|by repeat split].
  rewrite <- Hw. destruct res as [[[r|] e]|why]; try reflexivity.
  destruct (getBodyRespCode (Body r) w1) as [res2 w2] eqn:Hg.
  apply getBodyRespCode_wire in Hg.
  by destruct res2 as [[rc [e'|]]|why]; [| destruct (negb (rc =? 200)) |].
Qed.

Lemma Encode_login_query (u p : string) :
  Values_Encode (Values_Add "password" p (Values_Set "username" u ∅))
  = "password=" +:+ QueryEscape p +:+ "&username=" +:+ QueryEscape u.
Proof. vm_compute. reflexivity. Qed.

Lemma Encode_image_query (uuid width : string) :
  Values_Encode (Values_Add "width" width (Values_Set "uuid" uuid ∅))
  = "uuid=" +:+ QueryEscape uuid +:+ "&width=" +:+ QueryEscape width.
Proof. vm_compute. reflexivity. Qed.

Lemma login_wire d w this res w' :
  heap w !! d = Some this ->
  login d w = (res, w') ->
  sent_between 1 3 (get_request (Cookie this) (LoginPath this) (login_query this)) w w'.
Proof.
  intros Hd. rewrite (login_eq _ _ _ Hd).
  destruct (getRequest _ _ _ w) as [res1 w1] eqn:Hg.
  apply (getRequest_spec _ _ _ _ _ _ _ Hd) in Hg as [_ Hres].
  destruct res1 as [[[r|] [e|]]|why]; try done; intros [= <- <-].
  - by destruct Hres as [? _].
  - destruct Hres as [(k & Hk & Hw) _]. exists k. split; [lia | exact Hw].
Qed.

(** X12.  [login] sends the credentials in the query of a GET: every request
    it puts on the wire (one to three of the same) has the URL
    [LoginPath?password=P&username=U], with [P] and [U] the query-escaped
    password and user name of the client. *)
Theorem login_sends_credentials_in_the_query d w this :
  heap w !! d = Some this ->
  exists k req,
    (1 <= k <= 3)%nat /\
    wire (snd (login d w)) = (wire w ++ replicate k req)%list /\
    Method req = "GET" /\
    Url req =
      LoginPath this +:+ "?password=" +:+ QueryEscape (Password (Creds this))
      +:+ "&username=" +:+ QueryEscape (Username (Creds this)).
Proof.
  intros Hd. destruct (login d w) as [res w'] eqn:Hl.
  destruct (login_wire _ _ _ _ _ Hd Hl) as (k & Hk & Hw).
  exists k, (get_request (Cookie this) (LoginPath this) (login_query this)).
  split; [exact Hk|]. split; [exact Hw|]. split; [done|].
  unfold get_request, login_query. cbn [Url Retry InitialInterval Get].
  by rewrite Encode_login_query.
Qed.

Lemma getImage_wire c o width st w this res w' :
  heap w !! Cameras_Dropcam c = Some this ->
  getImage c o width st w = (res, w') ->
  sent_between 1 3
    (get_request (Cookie this) (CamerasGetImagePath this) (image_query o width)) w w'.
Proof.
  intros Hd. rewrite (getImage_eq _ _ _ _ _ _ Hd).
  destruct (getRequest _ _ _ w) as [res1 w1] eqn:Hg.
  apply (getRequest_spec _ _ _ _ _ _ _ Hd) in Hg as [_ Hres].
  destruct res1 as [[[r|] [e|]]|why]; try done.
  - destruct Hres as [(k & Hk & Hw) _].
    destruct (ReadAll (Body r) w1) as [res2 w2] eqn:Hr.
    apply ReadAll_frame in Hr as [_ Hw2].
    destruct res2 as [[body [e'|]]|why]; [| destruct (_ || _) |];
      intros [= <- <-]; exists k; (split; [lia | congruence]).
  - destruct Hres as [(k & Hk & Hw) _]. intros [= <- <-].
    exists k. split; [lia | exact Hw].
Qed.

(** X13.  The time handed to [getImage] plays no part: the image request is
    the GET of [CamerasGetImagePath?uuid=U&width=W], with [U] the escaped uuid
    of the camera and [W] the width in decimal, and two calls that differ in
    the time only come to the same. *)
Theorem getImage_ignores_the_time c o width st w this :
  heap w !! Cameras_Dropcam c = Some this ->
  (forall st', getImage c o width st' w = getImage c o width st w) /\
  exists k req,
    (1 <= k <= 3)%nat /\
    wire (snd (getImage c o width st w)) = (wire w ++ replicate k req)%list /\
    Method req = "GET" /\
    Url req =
      CamerasGetImagePath this +:+ "?uuid=" +:+ QueryEscape (Uuid o)
      +:+ "&width=" +:+ Sprintf_d width.
Proof.
  intros Hd. split; [done|].
  destruct (getImage c o width st w) as [res w'] eqn:Hg.
  destruct (getImage_wire _ _ _ _ _ _ _ _ Hd Hg) as (k & Hk & Hw).
  exists k, (get_request (Cookie this) (CamerasGetImagePath this) (image_query o width)).
  split; [exact Hk|]. split; [exact Hw|]. split; [done|].
  unfold get_request, image_query. cbn [Url Retry InitialInterval Get].
  by rewrite Encode_image_query, QueryEscape_Sprintf_d.
Qed.

(** ** Images, from the server to the disk *)

(** A request that is answered at the first attempt. *)
Lemma getRequest_answered_at_once d url v w this rep :
  heap w !! d = Some this ->
  remote w (length (wire w)) (get_request (Cookie this) url v) = Answer rep ->
  getRequest d url v w =
  (Ret (Some {| Status := reply_status rep; StatusCode := reply_code rep;
                Header := reply_header rep; Body := length (streams w) |}, None),
   with_streams
     (fun ss => (ss ++ [{| unread := reply_body rep; fault := reply_fault rep |}])%list)
     (with_wire (fun l => (l ++ [get_request (Cookie this) url v])%list) w)).
Proof.
  intros Hd Hrem. by rewrite (getRequest_eq _ _ _ _ _ Hd), attempts_eq, attempt_eq, Hrem.
Qed.

Lemma getImage_answered_at_once c o width st w this rep :
  heap w !! Cameras_Dropcam c = Some this ->
  remote w (length (wire w))
    (get_request (Cookie this) (CamerasGetImagePath this) (image_query o width))
  = Answer rep ->
  exists w',
    getImage c o width st w =
    (Ret (match reply_fault rep with
          | Some _ => ([], Some "Failed to get Reply Response Code")
          | None =>
              if negb (reply_code rep =? 200)
                 || String.eqb (Header_Get (reply_header rep) "content-length") "0"
              then ([], Some "Malformed Request or image has 0 size")
              else (reply_body rep, None)
          end), w') /\
    frame w w' /\
    wire w' =
      (wire w ++ [get_request (Cookie this) (CamerasGetImagePath this)
                    (image_query o width)])%list.
Proof.
  intros Hd Hrem.
  rewrite (getImage_eq _ _ _ _ _ _ Hd), (getRequest_answered_at_once _ _ _ _ _ _ Hd Hrem).
  unfold ReadAll. cbn [streams with_streams with_wire Body].
  rewrite list_lookup_middle by done. cbn [unread fault StatusCode Header].
  destruct (reply_fault rep) as [e|].
  - eexists. split; [reflexivity|]. split; [|done].
    eapply frame_trans; [apply frame_with_wire|].
    eapply frame_trans; apply frame_with_streams.
  - destruct (negb _ || _); eexists; (split; [reflexivity|]); (split; [|done]);
      (eapply frame_trans; [apply frame_with_wire|]);
      eapply frame_trans; apply frame_with_streams.
Qed.

(** X14.  When the server answers the image request with status 200, a
    [content-length] other than "0" and a body that reads to its end,
    [getImage] returns exactly the bytes the server sent, with a nil error,
    after one request. *)
Theorem getImage_returns_the_bytes_sent c o width st w this rep :
  heap w !! Cameras_Dropcam c = Some this ->
  remote w (length (wire w))
    (get_request (Cookie this) (CamerasGetImagePath this) (image_query o width))
  = Answer rep ->
  reply_code rep = 200 ->
  Header_Get (reply_header rep) "content-length" <> "0" ->
  reply_fault rep = None ->
  exists w',
    getImage c o width st w = (Ret (reply_body rep, None), w') /\
    length (wire w') = S (length (wire w)).
Proof.
  intros Hd Hrem Hc Hl Hf.
  destruct (getImage_answered_at_once c o width st w this rep Hd Hrem)
    as (w' & Hg & _ & Hw).
  rewrite Hf, Hc in Hg.
  destruct (String.eqb_spec (Header_Get (reply_header rep) "content-length") "0") as [|_];
    [done|].
  exists w'. split; [exact Hg|]. rewrite Hw, length_app. simpl. lia.
Qed.

(** X15.  From the server to the disk: under the same conditions and with a
    path that the disk accepts, [SaveImage] returns nil, and afterwards the
    file at [path] holds exactly the bytes the server sent while every other
    file is what it was. *)
Theorem SaveImage_stores_the_bytes_sent c o path width st w this rep :
  heap w !! Cameras_Dropcam c = Some this ->
  remote w (length (wire w))
    (get_request (Cookie this) (CamerasGetImagePath this) (image_query o width))
  = Answer rep ->
  reply_code rep = 200 ->
  Header_Get (reply_header rep) "content-length" <> "0" ->
  reply_fault rep = None ->
  disk w path = None ->
  exists w',
    SaveImage c o path width st w = (Ret None, w') /\
    files w' !! path = Some (reply_body rep) /\
    (forall other, other <> path -> files w' !! other = files w !! other).
Proof.
  intros Hd Hrem Hc Hl Hf Hdisk.
  destruct (getImage_answered_at_once c o width st w this rep Hd Hrem)
    as (w1 & Hg & (_ & _ & _ & Hfiles & Hdisk1) & _).
  rewrite Hf, Hc in Hg.
  destruct (String.eqb_spec (Header_Get (reply_header rep) "content-length") "0") as [|_];
    [done|].
  rewrite SaveImage_eq, Hg. unfold WriteFile. rewrite Hdisk1, Hdisk.
  eexists. split; [reflexivity|]. simpl. rewrite Hfiles. split.
  - apply lookup_insert_eq.
  - intros other Hne. by apply lookup_insert_ne.
Qed.

(** ** The envelope, read twice and read without a status *)

(** X16.  The response that a successful [postRequest] returns is of no use
    to [getBodyRespCode]: its body was read to the end, so decoding it again
    fails, for every response and every body. *)
Theorem getBodyRespCode_after_postRequest_fails d url uuid data w r w' :
  postRequest d url uuid data w = (Ret (Some r, None), w') ->
  exists e w'', getBodyRespCode (Body r) w' = (Ret (0, Some e), w'').
Proof.
  intros Hp. apply postRequest_leaves_body_empty in Hp as (s & Hs & Hempty).
  rewrite (getBodyRespCode_eq _ _ _ Hs), Hempty, Unmarshal_nothing. by eexists _, _.
Qed.

(** X17.  Of the three errors in the text of [SetProperties] only two can
    come out: every run that returns gives [false] with "Failed postRequest "
    or with "Failed to get Reply Response Code"; "SeProperties Malformed
    Request" and [true] never do. *)
Theorem SetProperties_results c o name value w b err w' :
  SetProperties c o name value w = (Ret (b, err), w') ->
  b = false /\
  (err = Some "Failed postRequest " \/ err = Some "Failed to get Reply Response Code").
Proof.
  destruct (heap w !! Cameras_Dropcam c) as [this|] eqn:Hd.
  - rewrite (SetProperties_eq _ _ _ _ _ _ Hd).
    destruct (postRequest _ _ _ _ w) as [[[[r|] [e|]]|why] w1] eqn:Hp; try done.
    + intros [= <- <- <-]. eauto.
    + apply postRequest_leaves_body_empty in Hp as (s & Hs & Hempty).
      rewrite (getBodyRespCode_eq _ _ _ Hs), Hempty, Unmarshal_nothing.
      intros [= <- <- <-]. eauto.
    + intros [= <- <- <-]. eauto.
  - unfold SetProperties, deref. monad_unfold. by rewrite Hd.
Qed.

Lemma equal_fold_Status_eqb k :
  equal_fold (chars "Status") (chars k) = false -> String.eqb "Status" k = false.
Proof.
  intros Hf. destruct (String.eqb_spec "Status" k) as [<-|]; [|done].
  by vm_compute in Hf.
Qed.

Lemma decode_BodyStatus_without_status ms cur :
  Forall (fun m => equal_fold (chars "Status") (chars (fst m)) = false) ms ->
  decode BodyStatusT (JObj ms) (VStruct cur) = (VStruct cur, None).
Proof.
  intros Hms. cbn [decode BodyStatusT]. generalize (@None error). revert cur.
  induction Hms as [|[k x] ms Hk Hms IH]; intros cur err; [done|].
  cbn [fst] in Hk. unfold find_field at 1. cbn [find fst].
  rewrite (equal_fold_Status_eqb _ Hk), Hk. apply IH.
Qed.

(** X18.  An envelope that is a JSON object without a member named [status]
    (in any case of letters) is no decoding failure for [getBodyRespCode]: it
    returns the code 0 and a nil error, so that [postRequest] reports such a
    response as "Malformed Request". *)
Theorem getBodyRespCode_without_status rb w s ms :
  streams w !! rb = Some s ->
  parse (string_of_bytes (unread s)) = Some (JObj ms) ->
  Forall (fun m => equal_fold (chars "Status") (chars (fst m)) = false) ms ->
  fst (getBodyRespCode rb w) = Ret (0, None).
Proof.
  intros Hs Hp Hms. rewrite (getBodyRespCode_eq _ _ _ Hs). unfold Unmarshal.
  rewrite Hp. change (zero_value BodyStatusT) with (VStruct [("Status", VInt 0)]).
  by rewrite (decode_BodyStatus_without_status _ _ Hms).
Qed.

(** ** Events *)

Lemma decode_Events_object ms old : snd (decode EventsT (JObj ms) old) = None.
Proof.
  cbn [decode EventsT]. generalize (match old with VStruct fs => fs | _ => [] end).
  generalize (@None error). intros err cur. revert cur.
  induction ms as [|[k x] ms IH]; intros cur; [done|]. apply IH.
Qed.

Lemma decode_Events_ok j :
  snd (decode EventsT j (zero_value EventsT)) = None <->
  (j = JNull \/ exists ms, j = JObj ms).
Proof.
  destruct j as [|b|lit|str|elems|ms].
  - split; [by left | done].
  - split; [done | by intros [|[? ?]]].
  - split; [done | by intros [|[? ?]]].
  - split; [done | by intros [|[? ?]]].
  - split; [done | by intros [|[? ?]]].
  - split; [by right; eexists | intros _; apply decode_Events_object].
Qed.

(** X19.  [GetEvents] can only succeed on a JSON object (or [null]): once the
    event request has a response, the call returns without an error exactly
    when the body reads to its end and is one JSON document that is an object
    or [null].  A body that is a JSON array, a list of events, is an error. *)
Theorem GetEvents_accepts_objects_only c o st et w this r w1 s :
  heap w !! Cameras_Dropcam c = Some this ->
  getRequest (Cameras_Dropcam c) (EventPath this) (event_query o st et) w
  = (Ret (Some r, None), w1) ->
  streams w1 !! Body r = Some s ->
  (exists w', GetEvents c o st et w = (Ret ([], None), w')) <->
  (fault s = None /\
   exists j, parse (string_of_bytes (unread s)) = Some j /\
             (j = JNull \/ exists ms, j = JObj ms)).
Proof.
  intros Hd Hg Hs. unfold event_query in Hg.
  rewrite (GetEvents_eq _ _ _ _ _ _ Hd), Hg, (ReadAll_eq _ _ _ Hs).
  destruct (fault s) as [e|]; [split; [by intros [? [=]] | by intros [[=] _]]|].
  unfold Unmarshal. destruct (parse (string_of_bytes (unread s))) as [j|].
  - pose proof (decode_Events_ok j) as Hj.
    destruct (decode EventsT j (zero_value EventsT)) as [ev [e|]]; cbn [snd] in Hj.
    + split; [by intros [? [=]]|]. intros [_ (j' & [= <-] & Hobj)].
      by apply Hj in Hobj.
    + split; [|by eexists]. intros _. split; [done|]. exists j. split; [done|].
      by apply Hj.
  - split; [by intros [? [=]] | by intros [_ (? & [=] & _)]].
Qed.


(** * Further scenarios *)

(** X1 at a login endpoint that issues the cookie [abc123]. *)
Lemma login_stores_cookie_witness :
  exists w',
    login 0 world_login_ok = (Ret None, w') /\
    heap w' = <[0%nat := with_cookie (session EmptyString) "abc123"]> (heap world_login_ok).
Proof.
  assert (Hg : getRequest 0 (LoginPath (session EmptyString))
                 (login_query (session EmptyString)) world_login_ok
               = (Ret (Some {| Status := "200"; StatusCode := 200;
                               Header := {[ "Set-Cookie" := ["abc123"] ]}; Body := 0 |},
                       None),
                  snd (getRequest 0 (LoginPath (session EmptyString))
                         (login_query (session EmptyString)) world_login_ok)))
    by (vm_compute; reflexivity).
  exact (login_stores_cookie 0 world_login_ok (session EmptyString) _ _ eq_refl Hg
           ltac:(discriminate)).
Defined.

(** X2 at a server that never answers. *)
Lemma login_transport_failure_witness :
  exists w1,
    login 0 (world 1 never "old") = (Ret (Some "Login Request Failed: connection refused"), w1) /\
    heap w1 = heap (world 1 never "old").
Proof.
  exists (snd (login 0 (world 1 never "old"))).
  assert (Hg : getRequest 0 (LoginPath (session "old")) (login_query (session "old"))
                 (world 1 never "old")
               = (Ret (None, Some "connection refused"), snd (login 0 (world 1 never "old"))))
    by (vm_compute; reflexivity).
  exact (login_transport_failure 0 (world 1 never "old") (session "old") _ _ eq_refl Hg).
Defined.

(** X3 at a login that succeeds. *)
Lemma login_changes_only_the_cookie_witness :
  exists cookie,
    heap (snd (login 0 world_login_ok))
    = <[0%nat := with_cookie (session EmptyString) cookie]> (heap world_login_ok) /\
    (@None error = None -> cookie <> EmptyString).
Proof.
  assert (Hl : login 0 world_login_ok = (Ret None, snd (login 0 world_login_ok)))
    by (vm_compute; reflexivity).
  exact (login_changes_only_the_cookie 0 world_login_ok (session EmptyString) None _
           eq_refl Hl).
Defined.

(** X4 at a client that held the session of alice: [Init] for bob. *)
Lemma Init_resets_the_client_witness :
  exists cookie,
    heap (snd (Init 0 "bob" "pw" world_relogin))
    = <[0%nat := with_cookie (initialized "bob" "pw") cookie]> (heap world_relogin) /\
    ((Some 0%nat = Some 0%nat /\ @None error = None /\ cookie <> EmptyString) \/
     (Some 0%nat = None /\ is_Some (@None error) /\ cookie = EmptyString)).
Proof.
  assert (Hi : Init 0 "bob" "pw" world_relogin
               = (Ret (Some 0%nat, None), snd (Init 0 "bob" "pw" world_relogin)))
    by (vm_compute; reflexivity).
  exact (Init_resets_the_client 0 "bob" "pw" world_relogin (session "abc123") _ _ _
           eq_refl Hi).
Defined.

(** X6 at the camera list of two groups. *)
Lemma Cameras_with_cookie_witness :
  exists c err w',
    Dropcam_Cameras 0 world_cameras = (Ret (c, err), w') /\
    heap w' = heap world_cameras /\ files w' = files world_cameras /\
    (exists k req,
       (1 <= k <= 3)%nat /\ wire w' = (wire world_cameras ++ replicate k req)%list /\
       Method req = "GET" /\
       Url req = "https://www.dropcam.com/api/v1/cameras.get_visible?group_cameras=True" /\
       ReqHeader req = {[ "cookie" := "abc123" ]}) /\
    ((exists cams, c = Some cams /\ err = None /\ Cameras_Dropcam cams = 0%nat) \/
     (c = None /\ is_Some err)).
Proof.
  exact (Cameras_with_cookie 0 world_cameras (session "abc123") eq_refl ltac:(discriminate)).
Defined.

(** X7 at a server that issues a cookie and serves the camera list. *)
Lemma Cameras_after_Init_witness :
  exists c err w2,
    Dropcam_Cameras 0 (snd (Init 0 "alice" "secret" world_service)) = (Ret (c, err), w2) /\
    heap w2 = heap (snd (Init 0 "alice" "secret" world_service)) /\
    (exists k req,
       (1 <= k <= 3)%nat /\
       wire w2
       = (wire (snd (Init 0 "alice" "secret" world_service)) ++ replicate k req)%list /\
       Url req = "https://www.dropcam.com/api/v1/cameras.get_visible?group_cameras=True") /\
    ((exists cams, c = Some cams /\ err = None /\ Cameras_Dropcam cams = 0%nat) \/
     (c = None /\ is_Some err)).
Proof.
  assert (Hi : Init 0 "alice" "secret" world_service
               = (Ret (Some 0%nat, None), snd (Init 0 "alice" "secret" world_service)))
    by (vm_compute; reflexivity).
  exact (Cameras_after_Init 0 "alice" "secret" world_service (session EmptyString) _
           eq_refl Hi).
Defined.

(** X8 at a client without a cookie and a login that succeeds. *)
Lemma Cameras_nil_error_means_session_witness :
  exists this',
    heap (snd (Dropcam_Cameras 0 world_login_ok)) !! 0%nat = Some this' /\
    Cookie this' <> EmptyString.
Proof.
  assert (Hc : Dropcam_Cameras 0 world_login_ok
               = (Ret (None, None), snd (Dropcam_Cameras 0 world_login_ok)))
    by (vm_compute; reflexivity).
  exact (Cameras_nil_error_means_session 0 world_login_ok (session EmptyString) None _
           eq_refl Hc).
Defined.

(** X10 with and without a cookie. *)
Lemma getRequest_sends_witness :
  (exists k req,
     (1 <= k <= 3)%nat /\
     wire (snd (getRequest 0 "https://www.dropcam.com/api/v1/cameras.get" cameras_query
                  world_200_200))
     = (wire world_200_200 ++ replicate k req)%list /\
     Method req = "GET" /\
     Url req = "https://www.dropcam.com/api/v1/cameras.get?group_cameras=True" /\
     JsonBody req = None /\
     ReqHeader req = {[ "cookie" := "abc123" ]}) /\
  (exists k req,
     (1 <= k <= 3)%nat /\
     wire (snd (getRequest 0 "https://www.dropcam.com/api/v1/cameras.get" cameras_query
                  world_login_ok))
     = (wire world_login_ok ++ replicate k req)%list /\
     Method req = "GET" /\
     Url req = "https://www.dropcam.com/api/v1/cameras.get?group_cameras=True" /\
     JsonBody req = None /\
     ReqHeader req = ∅).
Proof.
  split.
  - exact (getRequest_sends 0 "https://www.dropcam.com/api/v1/cameras.get" cameras_query
             world_200_200 (session "abc123") eq_refl).
  - exact (getRequest_sends 0 "https://www.dropcam.com/api/v1/cameras.get" cameras_query
             world_login_ok (session EmptyString) eq_refl).
Defined.

(** X11 on a client without a cookie: the header is there, and empty. *)
Lemma postRequest_sends_witness :
  exists k req,
    (1 <= k <= Nat.max 1 1)%nat /\
    wire (snd (postRequest 0 properties_url "u1" streaming_on world_login_ok))
    = (wire world_login_ok ++ replicate k req)%list /\
    Method req = "POST" /\ Url req = properties_url /\ JsonBody req = Some streaming_on /\
    ReqHeader req =
      {[ "cookie" := EmptyString; "Referer" := "https://www.dropcam.com/watch/u1" ]}.
Proof.
  exact (postRequest_sends 0 properties_url "u1" streaming_on world_login_ok
           (session EmptyString) eq_refl).
Defined.

(** X12 for alice. *)
Lemma login_sends_credentials_in_the_query_witness :
  exists k req,
    (1 <= k <= 3)%nat /\
    wire (snd (login 0 world_login_ok)) = (wire world_login_ok ++ replicate k req)%list /\
    Method req = "GET" /\
    Url req = "https://www.dropcam.com/api/v1/login.login?password=secret&username=alice".
Proof.
  exact (login_sends_credentials_in_the_query 0 world_login_ok (session EmptyString) eq_refl).
Defined.

(** X13 for the front-door camera. *)
Lemma getImage_ignores_the_time_witness :
  (forall st', getImage cams front_door 720 st' world_image
               = getImage cams front_door 720 midnight world_image) /\
  exists k req,
    (1 <= k <= 3)%nat /\
    wire (snd (getImage cams front_door 720 midnight world_image))
    = (wire world_image ++ replicate k req)%list /\
    Method req = "GET" /\
    Url req = "https://www.dropcam.com/api/v1/cameras.get_image?uuid=u1&width=720".
Proof.
  exact (getImage_ignores_the_time cams front_door 720 midnight world_image
           (session "abc123") eq_refl).
Defined.

(** X14 and X15 at the four-byte image. *)
Lemma getImage_returns_the_bytes_sent_witness :
  exists w',
    getImage cams front_door 720 midnight world_image
    = (Ret (bytes_of_string "JPEG", None), w') /\
    length (wire w') = S (length (wire world_image)).
Proof.
  exact (getImage_returns_the_bytes_sent cams front_door 720 midnight world_image
           (session "abc123") (reply 200 {[ "Content-Length" := ["4"] ]} "JPEG")
           eq_refl eq_refl eq_refl ltac:(discriminate) eq_refl).
Defined.

Lemma SaveImage_stores_the_bytes_sent_witness :
  exists w',
    SaveImage cams front_door "./img-0" 720 midnight world_image = (Ret None, w') /\
    files w' !! "./img-0" = Some (bytes_of_string "JPEG") /\
    (forall other, other <> "./img-0" -> files w' !! other = files world_image !! other).
Proof.
  exact (SaveImage_stores_the_bytes_sent cams front_door "./img-0" 720 midnight world_image
           (session "abc123") (reply 200 {[ "Content-Length" := ["4"] ]} "JPEG")
           eq_refl eq_refl eq_refl ltac:(discriminate) eq_refl eq_refl).
Defined.

(** X16 at the property scenario with the answer [{"status":200}]. *)
Lemma getBodyRespCode_after_postRequest_fails_witness :
  exists e w'',
    getBodyRespCode 0 (snd (postRequest 0 properties_url "u1" streaming_on world_200_200))
    = (Ret (0, Some e), w'').
Proof.
  assert (Hp : postRequest 0 properties_url "u1" streaming_on world_200_200
               = (Ret (Some {| Status := "200"; StatusCode := 200; Header := ∅; Body := 0 |},
                       None),
                  snd (postRequest 0 properties_url "u1" streaming_on world_200_200)))
    by (vm_compute; reflexivity).
  exact (getBodyRespCode_after_postRequest_fails 0 properties_url "u1" streaming_on
           world_200_200 _ _ Hp).
Defined.

(** X17 at the answer [{"status":403}]. *)
Lemma SetProperties_results_witness :
  false = false /\
  (Some "Failed postRequest " = Some "Failed postRequest " \/
   Some "Failed postRequest " = Some "Failed to get Reply Response Code").
Proof.
  assert (Hs : SetProperties cams front_door "streaming.enabled" "true" world_200_403
               = (Ret (false, Some "Failed postRequest "),
                  snd (SetProperties cams front_door "streaming.enabled" "true"
                         world_200_403)))
    by (vm_compute; reflexivity).
  exact (SetProperties_results cams front_door "streaming.enabled" "true" world_200_403
           false (Some "Failed postRequest ") _ Hs).
Defined.

(** X18 at the body [{"message":"ok"}]. *)
Lemma getBodyRespCode_without_status_witness :
  fst (getBodyRespCode 0
         (snd (getRequest 0 (CamerasGet (session "abc123")) cameras_query world_no_status)))
  = Ret (0, None).
Proof.
  apply (getBodyRespCode_without_status 0
           (snd (getRequest 0 (CamerasGet (session "abc123")) cameras_query world_no_status))
           {| unread := bytes_of_string (q "{'message':'ok'}"); fault := None |}
           [("message", JStr "ok")]).
  - reflexivity.
  - reflexivity.
  - repeat constructor.
Defined.

(** X19 at a body that is an object, and at one that is an array. *)
Lemma GetEvents_accepts_objects_only_witness :
  ((exists w', GetEvents cams front_door midnight midnight world_events
               = (Ret ([], None), w')) <->
   (@None error = None /\
    exists j,
      parse (q "{'cuepoints':[{'id':1},{'id':2},{'id':3}]}") = Some j /\
      (j = JNull \/ exists ms, j = JObj ms))) /\
  ((exists w', GetEvents cams front_door midnight midnight world_event_array
               = (Ret ([], None), w')) <->
   (@None error = None /\
    exists j,
      parse (q "[{'id':1},{'id':2}]") = Some j /\
      (j = JNull \/ exists ms, j = JObj ms))).
Proof.
  split.
  - assert (Hg : getRequest 0 (EventPath (session "abc123"))
                   (event_query front_door midnight midnight) world_events
                 = (Ret (Some {| Status := "200"; StatusCode := 200; Header := ∅;
                                 Body := 0 |}, None),
                    snd (getRequest 0 (EventPath (session "abc123"))
                           (event_query front_door midnight midnight) world_events)))
      by (vm_compute; reflexivity).
    exact (GetEvents_accepts_objects_only cams front_door midnight midnight world_events
             (session "abc123") _ _
             {| unread := bytes_of_string (q "{'cuepoints':[{'id':1},{'id':2},{'id':3}]}");
                fault := None |}
             eq_refl Hg eq_refl).
  - assert (Hg : getRequest 0 (EventPath (session "abc123"))
                   (event_query front_door midnight midnight) world_event_array
                 = (Ret (Some {| Status := "200"; StatusCode := 200; Header := ∅;
                                 Body := 0 |}, None),
                    snd (getRequest 0 (EventPath (session "abc123"))
                           (event_query front_door midnight midnight) world_event_array)))
      by (vm_compute; reflexivity).
    exact (GetEvents_accepts_objects_only cams front_door midnight midnight
             world_event_array (session "abc123") _ _
             {| unread := bytes_of_string (q "[{'id':1},{'id':2}]"); fault := None |}
             eq_refl Hg eq_refl).
Defined.

(** A list of events that is a JSON array is refused. *)
Example GetEvents_refuses_an_array :
  fst (GetEvents cams front_door midnight midnight world_event_array)
  = Ret ([], Some "json: cannot unmarshal array into Go value of type Events").
Proof. vm_compute. reflexivity. Qed.


(** X21.  All that [SetProperties] puts on the wire is the POST of the
    property: its URL is the properties endpoint with the uuid of the camera
    right behind it, no separator in between, and its body is the JSON object
    of the three members [camera_uuid], [name] and [value], in this order. *)
Theorem SetProperties_sends c o name value w this :
  heap w !! Cameras_Dropcam c = Some this ->
  exists k req,
    (1 <= k)%nat /\
    wire (snd (SetProperties c o name value w)) = (wire w ++ replicate k req)%list /\
    Method req = "POST" /\
    Url req = PropertiesPath this +:+ Uuid o /\
    JsonBody req =
      Some (JObj [("camera_uuid", JStr (Uuid o)); ("name", JStr name);
                  ("value", JStr value)]).
Proof.
  intros Hd. destruct (SetProperties c o name value w) as [res w'] eqn:Hs.
  exact (SetProperties_posts _ _ _ _ _ _ _ _ Hd Hs).
Qed.

(** X21 at the property scenario. *)
Lemma SetProperties_sends_witness :
  exists k req,
    (1 <= k)%nat /\
    wire (snd (SetProperties cams front_door "streaming.enabled" "true" world_200_200))
    = (wire world_200_200 ++ replicate k req)%list /\
    Method req = "POST" /\
    Url req = "https://www.dropcam.com/app/cameras/propertiesu1" /\
    JsonBody req =
      Some (JObj [("camera_uuid", JStr "u1"); ("name", JStr "streaming.enabled");
                  ("value", JStr "true")]).
Proof.
  exact (SetProperties_sends cams front_door "streaming.enabled" "true" world_200_200
           (session "abc123") eq_refl).
Defined.
